(** * Foundry-Local: the monitoring dashboard and the AI copilot

    A shallow embedding of
      - [foundry-hybrid/monitoring/dashboard.py] (class [FoundryDashboard],
        its routes and the [/ws] streaming endpoint), and
      - [foundry-hybrid/ai-copilot/foundry_copilot.py] (class
        [FoundryCopilot]: the contract analysis, the project advice and
        the routes),
    followed by the properties established about them.

    Python objects are modelled by [PyValue]; the methods of the dashboard
    are written in a small state monad [Py] over the interpreter's [World]
    (the dashboard instance, the wall clock, standard output); the asyncio
    event loop that interleaves the [/ws] handlers is a labelled step
    function on [Server].  The methods of the copilot pass the log along;
    the handlers of its routes are functions on [Service]. *)

From Stdlib Require Import List String Ascii Bool Arith ZArith QArith Lia.
From Stdlib Require Import Qround Qabs DecimalString.
Import ListNotations.

Set Warnings "-register-all".

Local Close Scope Q_scope.

Local Open Scope list_scope.
Local Open Scope string_scope.

(* ===================================================================== *)
(** * Python values *)
(* ===================================================================== *)

(** The JSON-like objects that the services build: [str], [int], [list]
    and [dict].  A [dict] keeps its insertion order, as in Python, so it is
    an association list. *)
Inductive PyValue : Type :=
| PyStr (s : string)
| PyInt (z : Z)
| PyList (items : list PyValue)
| PyDict (entries : list (string * PyValue)).

(** [d[k]] / [k in d] for a dict; [None] on a non-dict or a missing key. *)
Fixpoint assoc_get (k : string) (entries : list (string * PyValue))
  : option PyValue :=
  match entries with
  | [] => None
  | (k', v) :: rest => if String.eqb k' k then Some v else assoc_get k rest
  end.

Definition dict_get (k : string) (d : PyValue) : option PyValue :=
  match d with
  | PyDict entries => assoc_get k entries
  | _ => None
  end.

(** [list(d.keys())]. *)
Definition dict_keys (d : PyValue) : list string :=
  match d with
  | PyDict entries => map fst entries
  | _ => []
  end.

(** A non-empty mapping: a dict with at least one entry. *)
Definition nonempty_mapping (v : PyValue) : bool :=
  match v with
  | PyDict (_ :: _) => true
  | _ => false
  end.

(** The keys of a value at every level, with the leaves erased: two values
    of equal [key_shape] have the same top-level keys, in the same order,
    and under each key again the same keys. *)
Inductive KeyShape : Type :=
| KLeaf
| KDict (entries : list (string * KeyShape)).

Fixpoint key_shape (v : PyValue) : KeyShape :=
  match v with
  | PyDict entries =>
      KDict ((fix go (l : list (string * PyValue)) :=
                match l with
                | [] => []
                | (k, x) :: rest => (k, key_shape x) :: go rest
                end) entries)
  | _ => KLeaf
  end.

(** [str(n)] for an int. *)
Definition str_of_Z (z : Z) : string := NilEmpty.string_of_int (Z.to_int z).

(* ===================================================================== *)
(** * json.dumps *)
(* ===================================================================== *)

Module Json.

Definition dquote : ascii := ascii_of_nat 34.
Definition backslash : ascii := ascii_of_nat 92.

Definition hex_digit (n : nat) : ascii :=
    if (n <? 10)%nat then ascii_of_nat (48 + n) else ascii_of_nat (87 + n).

  (** One character inside a JSON string, [ensure_ascii=True]: printable
      ASCII stands for itself except the quote and the backslash; the rest
      is escaped. *)
Definition escape_char (c : ascii) : string :=
    let n := nat_of_ascii c in
    if (n =? 34)%nat then String backslash (String dquote EmptyString)
    else if (n =? 92)%nat then String backslash (String backslash EmptyString)
    else if (n =? 10)%nat then String backslash "n"
    else if (n =? 13)%nat then String backslash "r"
    else if (n =? 9)%nat then String backslash "t"
    else if (n =? 8)%nat then String backslash "b"
    else if (n =? 12)%nat then String backslash "f"
    else if (32 <=? n)%nat && (n <=? 126)%nat then String c EmptyString
    else String backslash
           ("u00" ++ String (hex_digit (n / 16)%nat)
                       (String (hex_digit (n mod 16)%nat) EmptyString)).

Fixpoint escape (s : string) : string :=
    match s with
    | EmptyString => EmptyString
    | String c rest => escape_char c ++ escape rest
    end.

Definition quoted (s : string) : string :=
    String dquote (escape s ++ String dquote EmptyString).

  (** [", ".join(parts)]. *)
Fixpoint join (parts : list string) : string :=
    match parts with
    | [] => ""
    | [p] => p
    | p :: rest => p ++ ", " ++ join rest
    end.

  (** [json.dumps(v)] with the default separators. *)
Fixpoint dumps (v : PyValue) : string :=
    match v with
    | PyStr s => quoted s
    | PyInt z => str_of_Z z
    | PyList items => "[" ++ join (map dumps items) ++ "]"
    | PyDict entries =>
        "{" ++ join ((fix go (l : list (string * PyValue)) :=
                        match l with
                        | [] => []
                        | (k, x) :: rest =>
                            (quoted k ++ ": " ++ dumps x) :: go rest
                        end) entries) ++ "}"
    end.

End Json.

(* ===================================================================== *)
(** * Floats, the clock, and the interpreter state *)
(* ===================================================================== *)

(** The float operations the dashboard uses.  The development is generic
    in them: nothing proved below depends on how a float rounds.
    [flit q] is the float nearest to the literal [q] (an [int] operand of
    a mixed operation is converted the same way). *)
Class PyFloat (F : Type) : Type := {
  flit : Q -> F;
  fadd : F -> F -> F;             (* x + y *)
  fmod : F -> F -> F;             (* x % y *)
  fdiv : F -> F -> F;             (* x / y *)
  ftrunc : F -> Z;                (* int(x) *)
  ffixed : nat -> F -> string;    (* format(x, ".{n}f") *)
  isoformat : F -> string         (* datetime.fromtimestamp(x).isoformat() *)
}.

(** The identity of a [WebSocket] object.  Starlette connections compare
    by identity, which is what [list.remove] uses. *)
Definition WebSocket : Type := nat.

(** [class FoundryDashboard]: the fields set in [__init__]
    (the FastAPI [app] carries no data of its own). *)
Record FoundryDashboard : Type := mkDashboard {
  metrics : PyValue;
  alerts : list PyValue;
  performance_data : PyValue;
  connected_websockets : list WebSocket
}.

(** [FoundryDashboard.__init__]. *)
Definition new_dashboard : FoundryDashboard :=
  {| metrics := PyDict [];
     alerts := [];
     performance_data := PyDict [];
     connected_websockets := [] |}.

Section Dashboard.

  Context {F : Type} `{PyFloat F}.

  (** The wall clock as an oracle: [feed n] is what the [n]-th reading of
      the clock returns, [reads] counts the readings made so far. *)
Record Clock : Type := mkClock {
    feed : nat -> F;
    reads : nat
  }.

  (** What a method can touch: the dashboard instance ([self]), the clock,
      and standard output. *)
Record World : Type := mkWorld {
    self : FoundryDashboard;
    clock : Clock;
    stdout : list string
  }.

  (** Computations of the dashboard: state passing over [World]. *)
Definition Py (A : Type) : Type := World -> A * World.

Definition ret {A} (a : A) : Py A := fun w => (a, w).

Definition bind {A B} (c : Py A) (k : A -> Py B) : Py B :=
    fun w => let (a, w') := c w in k a w'.

  Notation "x <- c ;; k" := (bind c (fun x => k))
    (at level 61, c at next level, right associativity).

  (** [time.time()]: one reading of the clock. *)
Definition time_time : Py F :=
    fun w =>
      (feed (clock w) (reads (clock w)),
       {| self := self w;
          clock := {| feed := feed (clock w); reads := S (reads (clock w)) |};
          stdout := stdout w |}).

  (** [datetime.now()]: also one reading of the clock. *)
Definition datetime_now : Py F := time_time.

  (** [self.metrics = m]. *)
Definition set_metrics (m : PyValue) : Py unit :=
    fun w =>
      (tt,
       {| self := {| metrics := m;
                     alerts := alerts (self w);
                     performance_data := performance_data (self w);
                     connected_websockets := connected_websockets (self w) |};
          clock := clock w;
          stdout := stdout w |}).

  (** [print(line)]. *)
Definition print (line : string) : Py unit :=
    fun w =>
      (tt, {| self := self w; clock := clock w;
              stdout := (stdout w ++ [line])%list |}).

  (** [base + (time.time() % m)] as a float. *)
Definition drift (base m : Q) : Py F :=
    t <- time_time ;;
    ret (fadd (flit base) (fmod t (flit m))).

  (** [base + int(time.time() % m)] as an int. *)
Definition count (base : Z) (m : Q) : Py PyValue :=
    t <- time_time ;;
    ret (PyInt (base + ftrunc (fmod t (flit m)))).

  (** [f"{base + (time.time() % m):.{digits}f}{unit}"]. *)
Definition gauge (digits : nat) (base m : Q) (unit : string) : Py PyValue :=
    x <- drift base m ;;
    ret (PyStr (ffixed digits x ++ unit)).

  (** [_infrastructure_metrics]. *)
Definition _infrastructure_metrics : Py PyValue :=
    lat <- gauge 1 2 5 "ms" ;;
    mem <- gauge 1 2.1 0.5 "GB" ;;
    cpu <- gauge 0 45 20 "%" ;;
    dio <- gauge 0 150 50 "MB/s" ;;
    net <- gauge 1 1.2 0.8 "GB/s" ;;
    t1 <- time_time ;;
    t2 <- time_time ;;
    ret (PyDict
      [ ("anvil_rpc_latency", lat);
        ("container_memory_usage", mem);
        ("cpu_utilization", cpu);
        ("disk_io", dio);
        ("network_throughput", net);
        ("uptime",
         PyStr (str_of_Z (ftrunc (fdiv (fmod t1 (flit 86400)) (flit 3600)))
                ++ "h "
                ++ str_of_Z (ftrunc (fdiv (fmod t2 (flit 3600)) (flit 60)))
                ++ "m")) ]).

  (** [_development_metrics]. *)
Definition _development_metrics : Py PyValue :=
    a <- count 15 10 ;;
    b <- count 847 100 ;;
    c <- count 2341 200 ;;
    d <- count 23 10 ;;
    e <- count 156 50 ;;
    f <- gauge 1 3.2 2 "s" ;;
    ret (PyDict
      [ ("active_projects", a);
        ("contracts_compiled", b);
        ("tests_executed", c);
        ("deployments_today", d);
        ("gas_optimizations", e);
        ("avg_compilation_time", f) ]).

  (** [_ai_metrics]. *)
Definition _ai_metrics : Py PyValue :=
    a <- count 342 50 ;;
    b <- count 89 20 ;;
    c <- count 567 100 ;;
    d <- count 23 10 ;;
    e <- count 34 15 ;;
    f <- gauge 1 70 20 "%" ;;
    ret (PyDict
      [ ("copilot_interactions", a);
        ("security_scans", b);
        ("code_suggestions", c);
        ("cross_city_insights", d);
        ("template_generations", e);
        ("ai_model_status", PyStr "active");
        ("suggestion_acceptance_rate", f) ]).

  (** [_transport_metrics]. *)
Definition _transport_metrics : Py PyValue :=
    a <- count 1234 100 ;;
    b <- count 987 80 ;;
    c <- gauge 0 85 30 "ms" ;;
    d <- count 5 3 ;;
    ret (PyDict
      [ ("connected_cities", PyInt 3);
        ("messages_sent", a);
        ("messages_received", b);
        ("transport_latency", c);
        ("knowledge_sync_rate", PyStr "99.9%");
        ("active_collaborations", d) ]).

  (** [_integration_metrics]. *)
Definition _integration_metrics : Py PyValue :=
    a <- gauge 0 60 25 "%" ;;
    b <- gauge 1 4.2 0.8 "/5.0" ;;
    c <- gauge 0 88 10 "%" ;;
    ret (PyDict
      [ ("district_status", PyStr "manufacturing_active");
        ("cognitive_load", a);
        ("innovation_index", b);
        ("collaboration_efficiency", c);
        ("knowledge_integration", PyStr "optimal") ]).

  (** [collect_metrics]: builds the snapshot, stores it in [self.metrics]
      and returns it. *)
Definition collect_metrics : Py PyValue :=
    now <- datetime_now ;;
    let current_time := isoformat now in
    infra <- _infrastructure_metrics ;;
    dev <- _development_metrics ;;
    ai <- _ai_metrics ;;
    transport <- _transport_metrics ;;
    integ <- _integration_metrics ;;
    let m := PyDict
      [ ("timestamp", PyStr current_time);
        ("infrastructure", infra);
        ("development", dev);
        ("ai_assistance", ai);
        ("neural_transport", transport);
        ("city_integration", integ) ] in
    _ <- set_metrics m ;;
    ret m.

End Dashboard.

Arguments Clock F : clear implicits.
Arguments World F : clear implicits.
Arguments Py F A : clear implicits.

(* ===================================================================== *)
(** * A reference instance of the float interface *)
(* ===================================================================== *)

(** Python's [float] is IEEE 754 binary64.  A float is represented here by
    the rational number it stands for, and every operation rounds its
    exact result to the nearest binary64, ties to even, as the hardware
    does (infinities and NaN do not occur: the values handled are clock
    readings and small constants).  The local time zone is taken to be
    UTC.  The instance is used to run the model on concrete clocks; the
    general results do not depend on it. *)
Module Exact.

  Local Open Scope Z_scope.

  (** Round to the nearest integer, ties to even. *)
Definition round_half_even (q : Q) : Z :=
    let f := Qfloor q in
    match Qcompare (q - inject_Z f) (1 # 2) with
    | Lt => f
    | Gt => f + 1
    | Eq => if Z.even f then f else f + 1
    end.

  (** [2 ^ e] for an integer [e] of either sign. *)
Definition pow2 (e : Z) : Q :=
    match e with
    | Z0 => 1%Q
    | Zpos p => inject_Z (2 ^ Zpos p)
    | Zneg p => (1 # Pos.pow 2 p)%Q
    end.

  (** The integer part of the binary logarithm of [q > 0]. *)
Definition ilog2 (q : Q) : Z :=
    let e := Z.log2 (Qnum q) - Z.log2 (Zpos (Qden q)) in
    if Qle_bool (pow2 e) q then e else e - 1.

  (** The binary64 nearest to [q], ties to even: 53 significant bits, the
      least exponent that of the subnormal numbers. *)
Definition to_double (q : Q) : Q :=
    if Qeq_bool q 0 then 0%Q
    else
      let a := Qabs q in
      let e := Z.max (ilog2 a - 52) (-1074) in
      let m := round_half_even (a / pow2 e)%Q in
      let r := (inject_Z m * pow2 e)%Q in
      Qred (if Qle_bool 0 q then r else - r)%Q.

  (** [x % y] for [y > 0]: the result has the sign of [y]. *)
Definition qmod (x y : Q) : Q :=
    to_double (x - y * inject_Z (Qfloor (x / y)))%Q.

  (** [int(x)]: truncation towards zero. *)
Definition qtrunc (x : Q) : Z := Z.quot (Qnum x) (Zpos (Qden x)).

  (** The decimal digits of [z >= 0], zero-padded on the left to [width]. *)
Definition padded (width : nat) (z : Z) : string :=
    let s := str_of_Z z in
    (fix pad (n : nat) (acc : string) : string :=
       match n with
       | O => acc
       | S n' => pad n' (String "0"%char acc)
       end) (width - String.length s)%nat s.

  (** [format(x, ".{digits}f")]: the value of the float, rounded correctly
      to [digits] decimals. *)
Definition fixed (digits : nat) (x : Q) : string :=
    let scale := 10 ^ Z.of_nat digits in
    let r := round_half_even (x * inject_Z scale) in
    let a := Z.abs r in
    let sign := if Qle_bool 0 x then "" else "-" in
    match digits with
    | O => sign ++ str_of_Z a
    | _ => sign ++ str_of_Z (a / scale) ++ "." ++ padded digits (a mod scale)
    end.

  (** The civil date of a day number counted from 1970-01-01. *)
Definition civil_from_days (days : Z) : Z * Z * Z :=
    let z := days + 719468 in
    let era := z / 146097 in
    let doe := z - era * 146097 in
    let yoe := (doe - doe / 1460 + doe / 36524 - doe / 146096) / 365 in
    let doy := doe - (365 * yoe + yoe / 4 - yoe / 100) in
    let mp := (5 * doy + 2) / 153 in
    let d := doy - (153 * mp + 2) / 5 + 1 in
    let m := if mp <? 10 then mp + 3 else mp - 9 in
    let y := yoe + era * 400 + (if m <=? 2 then 1 else 0) in
    (y, m, d).

  (** [datetime.utcfromtimestamp(x).isoformat()]. *)
Definition iso (x : Q) : string :=
    let us := round_half_even (x * inject_Z 1000000) in
    let secs := us / 1000000 in
    let micro := us mod 1000000 in
    let '(y, m, d) := civil_from_days (secs / 86400) in
    let sod := secs mod 86400 in
    padded 4 y ++ "-" ++ padded 2 m ++ "-" ++ padded 2 d ++ "T"
      ++ padded 2 (sod / 3600) ++ ":" ++ padded 2 (sod mod 3600 / 60)
      ++ ":" ++ padded 2 (sod mod 60)
      ++ (if micro =? 0 then "" else "." ++ padded 6 micro).

#[global] Instance float : PyFloat Q := {|
    flit := to_double;
    fadd := fun x y => to_double (x + y)%Q;
    fmod := qmod;
    fdiv := fun x y => to_double (x / y)%Q;
    ftrunc := qtrunc;
    ffixed := fixed;
    isoformat := iso
  |}.

  (** A clock that starts at [t0] and advances by [dt] at every reading. *)
Definition ticking (t0 dt : Q) : Clock Q :=
    {| feed := fun n => to_double (t0 + inject_Z (Z.of_nat n) * dt)%Q;
       reads := 0 |}.

  (** A clock stopped at the instant [t]. *)
Definition frozen (t : Q) : Clock Q :=
    {| feed := fun _ => to_double t; reads := 0 |}.

End Exact.

(* ===================================================================== *)
(** * Exceptions and [list.remove] *)
(* ===================================================================== *)

(** An exception object: whether it is an instance of [Exception] (and so
    caught by [except Exception]; [CancelledError] and [KeyboardInterrupt]
    are not), and its [str()]. *)
Record PyExc : Type := mkExc {
  exc_is_Exception : bool;
  exc_str : string
}.

Definition ValueError_not_in_list : PyExc :=
  {| exc_is_Exception := true; exc_str := "list.remove(x): x not in list" |}.

Inductive PyResult (A : Type) : Type :=
| Ok (a : A)
| Raised (e : PyExc).

Arguments Ok {A} a.
Arguments Raised {A} e.

(** [l.remove(x)]: drops the first item equal to [x]; raises [ValueError]
    when there is none. *)
Fixpoint list_remove (x : WebSocket) (l : list WebSocket)
  : PyResult (list WebSocket) :=
  match l with
  | [] => Raised ValueError_not_in_list
  | y :: rest =>
      if Nat.eqb y x then Ok rest
      else match list_remove x rest with
           | Ok rest' => Ok (y :: rest')
           | Raised e => Raised e
           end
  end.

(* ===================================================================== *)
(** * The routes and the event loop *)
(* ===================================================================== *)

Inductive Response : Type :=
| JSONResponse (body : PyValue)
| HTMLResponse (body : string).

Inductive Route : Type := GetRoot | GetHealth | GetMetrics | GetAlerts.

(** Where a [/ws] handler is suspended: inside
    [await websocket.send_text(payload)] or inside
    [await asyncio.sleep(seconds)]. *)
Inductive Await : Type :=
| AwaitSend (payload : string)
| AwaitSleep (seconds : Z).

(** What the event loop does next.  The code between two [await]s of a
    handler runs without interruption, so one event is one such stretch. *)
Inductive Event : Type :=
| Http (r : Route)              (* a GET request is served *)
| WsAccept                      (* a client connects and [accept()] returns *)
| WsAcceptError (e : PyExc)     (* a client connects and [accept()] raises *)
| WsSent (ws : WebSocket)       (* [send_text] of this handler completes *)
| WsWake (ws : WebSocket)       (* [asyncio.sleep] of this handler completes *)
| WsRaise (ws : WebSocket) (e : PyExc).
                                (* the pending [await] of this handler raises:
                                   the peer is gone, the send fails, or the
                                   task is cancelled *)

Fixpoint task_of (ws : WebSocket) (ts : list (WebSocket * Await))
  : option Await :=
  match ts with
  | [] => None
  | (w, a) :: rest => if Nat.eqb w ws then Some a else task_of ws rest
  end.

Definition set_task (ws : WebSocket) (a : Await)
    (ts : list (WebSocket * Await)) : list (WebSocket * Await) :=
  map (fun t => if Nat.eqb (fst t) ws then (ws, a) else t) ts.

Definition drop_task (ws : WebSocket) (ts : list (WebSocket * Await))
  : list (WebSocket * Await) :=
  filter (fun t => negb (Nat.eqb (fst t) ws)) ts.

Section Endpoint.

  Context {F : Type} `{PyFloat F}.

  (** The page returned by [_get_dashboard_html]: a constant text. *)
  Variable dashboard_html : string.

  Notation "x <- c ;; k" := (bind c (fun x => k))
    (at level 61, c at next level, right associativity).

  (** [GET /]. *)
Definition dashboard_route : Py F Response :=
    ret (HTMLResponse dashboard_html).

  (** [GET /health]. *)
Definition health_check : Py F Response :=
    now <- datetime_now ;;
    ret (JSONResponse (PyDict [ ("status", PyStr "healthy");
                                ("timestamp", PyStr (isoformat now)) ])).

  (** [GET /metrics]. *)
Definition get_metrics : Py F Response :=
    m <- collect_metrics ;;
    ret (JSONResponse m).

  (** [GET /alerts]. *)
Definition get_alerts : Py F Response :=
    fun w => (JSONResponse (PyDict [ ("alerts", PyList (alerts (self w))) ]), w).

Definition serve (r : Route) : Py F Response :=
    match r with
    | GetRoot => dashboard_route
    | GetHealth => health_check
    | GetMetrics => get_metrics
    | GetAlerts => get_alerts
    end.

  (** [self.connected_websockets = l]. *)
Definition set_connected (l : list WebSocket) (w : World F) : World F :=
    {| self := {| metrics := metrics (self w);
                  alerts := alerts (self w);
                  performance_data := performance_data (self w);
                  connected_websockets := l |};
       clock := clock w;
       stdout := stdout w |}.

  (** [self.connected_websockets.append(websocket)]. *)
Definition ws_append (ws : WebSocket) : Py F unit :=
    fun w => (tt, set_connected (connected_websockets (self w) ++ [ws])%list w).

  (** [self.connected_websockets.remove(websocket)]. *)
Definition ws_remove (ws : WebSocket) : Py F (PyResult unit) :=
    fun w =>
      match list_remove ws (connected_websockets (self w)) with
      | Ok l => (Ok tt, set_connected l w)
      | Raised e => (Raised e, w)
      end.

  (** The loop body up to its first [await] that suspends:
      [metrics = await self.collect_metrics()] and the argument of
      [send_text], [json.dumps(metrics)]. *)
Definition next_payload : Py F string :=
    m <- collect_metrics ;;
    ret (Json.dumps m).

  (** Leaving the [try] with exception [e]: the [except Exception] clause
      prints and swallows it when it applies, then the [finally] clause
      removes the socket.  The result is the exception the handler ends
      with, if any. *)
Definition ws_leave (ws : WebSocket) (e : PyExc) : Py F (option PyExc) :=
    pending <- (if exc_is_Exception e
                then (_ <- print ("WebSocket error: " ++ exc_str e) ;; ret None)
                else ret (Some e)) ;;
    r <- ws_remove ws ;;
    ret (match r with
         | Ok _ => pending
         | Raised e' => Some e'
         end).

  (** The process: the interpreter state, the suspended [/ws] handlers, and
      what the outside has observed (responses, frames delivered to each
      viewer, how each finished handler ended). *)
Record Server : Type := mkServer {
    world : World F;
    tasks : list (WebSocket * Await);
    next_ws : nat;
    delivered : list (WebSocket * string);
    exits : list (WebSocket * option PyExc);
    responses : list Response
  }.

Definition boot (c : Clock F) : Server :=
    {| world := {| self := new_dashboard; clock := c; stdout := [] |};
       tasks := [];
       next_ws := 0;
       delivered := [];
       exits := [];
       responses := [] |}.

  (** The viewer registry. *)
Definition registry (s : Server) : list WebSocket :=
    connected_websockets (self (world s)).

  (** One step of the event loop; [None] when the event cannot happen in
      this state (the handler it names is not suspended there). *)
Definition step (s : Server) (ev : Event) : option Server :=
    match ev with
    | Http r =>
        let (resp, w) := serve r (world s) in
        Some {| world := w; tasks := tasks s; next_ws := next_ws s;
                delivered := delivered s; exits := exits s;
                responses := (responses s ++ [resp])%list |}
    | WsAccept =>
        let ws := next_ws s in
        let (_, w1) := ws_append ws (world s) in
        let (payload, w2) := next_payload w1 in
        Some {| world := w2;
                tasks := (tasks s ++ [(ws, AwaitSend payload)])%list;
                next_ws := S ws;
                delivered := delivered s; exits := exits s;
                responses := responses s |}
    | WsAcceptError e =>
        Some {| world := world s; tasks := tasks s;
                next_ws := S (next_ws s);
                delivered := delivered s;
                exits := (exits s ++ [(next_ws s, Some e)])%list;
                responses := responses s |}
    | WsSent ws =>
        match task_of ws (tasks s) with
        | Some (AwaitSend payload) =>
            Some {| world := world s;
                    tasks := set_task ws (AwaitSleep 5) (tasks s);
                    next_ws := next_ws s;
                    delivered := (delivered s ++ [(ws, payload)])%list;
                    exits := exits s; responses := responses s |}
        | _ => None
        end
    | WsWake ws =>
        match task_of ws (tasks s) with
        | Some (AwaitSleep _) =>
            let (payload, w) := next_payload (world s) in
            Some {| world := w;
                    tasks := set_task ws (AwaitSend payload) (tasks s);
                    next_ws := next_ws s;
                    delivered := delivered s; exits := exits s;
                    responses := responses s |}
        | _ => None
        end
    | WsRaise ws e =>
        match task_of ws (tasks s) with
        | Some _ =>
            let (ended, w) := ws_leave ws e (world s) in
            Some {| world := w;
                    tasks := drop_task ws (tasks s);
                    next_ws := next_ws s;
                    delivered := delivered s;
                    exits := (exits s ++ [(ws, ended)])%list;
                    responses := responses s |}
        | None => None
        end
    end.

Fixpoint run (s : Server) (evs : list Event) : option Server :=
    match evs with
    | [] => Some s
    | ev :: rest =>
        match step s ev with
        | Some s' => run s' rest
        | None => None
        end
    end.

  (** The frames delivered to one viewer, oldest first. *)
Definition frames_of (ws : WebSocket) (s : Server) : list string :=
    map snd (filter (fun d => Nat.eqb (fst d) ws) (delivered s)).

End Endpoint.

(* ===================================================================== *)
(** * The copilot *)
(* ===================================================================== *)

Module Copilot.

  (** [class FoundryCopilot]. *)
Record FoundryCopilot : Type := mkCopilot {
    city_id : string;
    neural_transport_url : string;
    knowledge_base : PyValue;
    active_projects : PyValue
  }.

  (** The records handed to [logger]. *)
Definition Log : Type := list string.

Definition logger_info (msg : string) (log : Log) : Log :=
    (log ++ [msg])%list.

  (** [logger.error(msg)], on the stream of error records. *)
Definition logger_error (msg : string) (errors : Log) : Log :=
    (errors ++ [msg])%list.

  (** [_gas_analysis(self, code)]. *)
Definition _gas_analysis (self : FoundryCopilot) (code : string)
      (log : Log) : PyValue * Log :=
    let log := logger_info "Performing gas analysis..." log in
    (PyDict
       [ ("estimated_gas", PyInt 50000);
         ("optimization_potential", PyStr "15%");
         ("suggestions",
          PyList
            [ PyStr "Use uint256 instead of smaller uints for gas efficiency";
              PyStr "Pack struct variables to minimize storage slots";
              PyStr "Consider using immutable variables where possible" ]) ],
     log).

  (** ** Text

      A [str] is the list of its code points; the contract text handled
      here has code points below 256. *)

  (** [c.lower()] for one such code point: the capitals A-Z and the
      capitals U+00C0-U+00DE (U+00D7, the multiplication sign, is not one)
      move up by 32, every other code point stays. *)
Definition lower_char (c : ascii) : ascii :=
    let n := nat_of_ascii c in
    if ((65 <=? n) && (n <=? 90)
        || (192 <=? n) && (n <=? 222) && negb (n =? 215))%nat
    then ascii_of_nat (n + 32)
    else c.

  (** [s.lower()]. *)
Fixpoint lower (s : string) : string :=
    match s with
    | EmptyString => EmptyString
    | String c rest => String (lower_char c) (lower rest)
    end.

  (** [needle in hay]: [needle] occurs in [hay] as a substring. *)
Fixpoint contains (needle hay : string) : bool :=
    prefix needle hay
    || match hay with
       | EmptyString => false
       | String _ rest => contains needle rest
       end.

  (** ** The analysis *)

  (** [_security_scan(self, code)]. *)
Definition _security_scan (self : FoundryCopilot) (code : string)
      (log : Log) : list PyValue * Log :=
    let log := logger_info "Performing security scan..." log in
    let security_issues := [] in
    let security_issues :=
      if contains "selfdestruct" (lower code)
      then (security_issues
            ++ [ PyDict
                   [ ("type", PyStr "high");
                     ("issue", PyStr "Selfdestruct usage detected");
                     ("line", PyInt 0);
                     ("recommendation",
                      PyStr "Consider safer alternatives to selfdestruct") ] ])%list
      else security_issues in
    let security_issues :=
      if contains "tx.origin" (lower code)
      then (security_issues
            ++ [ PyDict
                   [ ("type", PyStr "medium");
                     ("issue", PyStr "tx.origin usage detected");
                     ("line", PyInt 0);
                     ("recommendation",
                      PyStr "Use msg.sender instead of tx.origin") ] ])%list
      else security_issues in
    (security_issues, log).

  (** [_best_practices_check(self, code)]. *)
Definition _best_practices_check (self : FoundryCopilot) (code : string)
      (log : Log) : list string * Log :=
    let log := logger_info "Checking best practices..." log in
    let practices := [] in
    let practices :=
      if negb (contains "pragma solidity" (lower code))
      then (practices ++ ["Add pragma solidity version specification"])%list
      else practices in
    let practices :=
      if negb (contains "natspec" (lower code)) && negb (contains "///" code)
      then (practices
            ++ ["Add NatSpec documentation for better readability"])%list
      else practices in
    let practices :=
      if negb (contains "event" (lower code))
      then (practices
            ++ ["Consider adding events for better transparency"])%list
      else practices in
    (practices, log).

  (** [_generate_test_suggestions(self, code)]. *)
Definition _generate_test_suggestions (self : FoundryCopilot) (code : string)
      (log : Log) : list string * Log :=
    let log := logger_info "Generating test suggestions..." log in
    let suggestions :=
      [ "Test all public/external functions";
        "Add fuzz testing for edge cases";
        "Test access control mechanisms";
        "Verify event emissions";
        "Test revert conditions" ] in
    (suggestions, log).

  (** A value of the analysis: one of the JSON-like objects above, or a
      [float] given by its literal. *)
Inductive Field : Type :=
| FJson (v : PyValue)
| FFloat (literal : Q).

Definition Dict : Type := list (string * Field).

  (** [d[k]] for such a dict. *)
Fixpoint field (k : string) (d : Dict) : option Field :=
    match d with
    | [] => None
    | (k', v) :: rest => if String.eqb k' k then Some v else field k rest
    end.

  (** [_share_insight(self, insight_type, data)]: the insight (its type,
      the city, the loop time and the data) is built and dropped; what
      remains are the two log records. *)
Definition _share_insight (self : FoundryCopilot) (insight_type : string)
      (data : Dict) (log : Log) : Log :=
    let log := logger_info ("Sharing insight of type: " ++ insight_type) log in
    logger_info ("Insight shared: " ++ insight_type) log.

  (** [analyze_contract(self, contract_code)]. *)
Definition analyze_contract (self : FoundryCopilot) (contract_code : string)
      (log : Log) : Dict * Log :=
    let log :=
      logger_info ("Analyzing contract in city: " ++ city_id self) log in
    let (security_issues, log) := _security_scan self contract_code log in
    let (gas_optimization, log) := _gas_analysis self contract_code log in
    let (best_practices, log) := _best_practices_check self contract_code log in
    let (test_suggestions, log) :=
      _generate_test_suggestions self contract_code log in
    let analysis :=
      [ ("security_issues", FJson (PyList security_issues));
        ("gas_optimization", FJson gas_optimization);
        ("best_practices", FJson (PyList (map PyStr best_practices)));
        ("test_suggestions", FJson (PyList (map PyStr test_suggestions)));
        ("confidence_score", FFloat 0.85) ] in
    let log := _share_insight self "contract_analysis" analysis log in
    (analysis, log).

  (** The field types [class ContractAnalysisResponse] declares:
      [List[Dict]], [Dict], [List[str]], [List[str]] and [float]. *)
Definition is_dict (v : PyValue) : bool :=
    match v with PyDict _ => true | _ => false end.

Definition is_str (v : PyValue) : bool :=
    match v with PyStr _ => true | _ => false end.

Definition is_list_of (item : PyValue -> bool) (f : Field) : bool :=
    match f with
    | FJson (PyList items) => forallb item items
    | _ => false
    end.

Definition ContractAnalysisResponse_fields : list (string * (Field -> bool)) :=
    [ ("security_issues", is_list_of is_dict);
      ("gas_optimization",
       fun f => match f with FJson v => is_dict v | _ => false end);
      ("best_practices", is_list_of is_str);
      ("test_suggestions", is_list_of is_str);
      ("confidence_score",
       fun f => match f with FFloat _ => true | _ => false end) ].

  (** [d] has exactly the declared fields, in the declared order, each of
      its declared type. *)
Fixpoint conforms (fields : list (string * (Field -> bool))) (d : Dict)
    : bool :=
    match fields, d with
    | [], [] => true
    | (k, ty) :: fields', (k', v) :: d' =>
        String.eqb k k' && ty v && conforms fields' d'
    | _, _ => false
    end.

  (** ** Projects *)

  (** [class FoundryProject]. *)
Record FoundryProject : Type := mkProject {
    name : string;
    contracts : list string;
    tests : list string;
    dependencies : list (string * string);
    gas_optimization_level : Z
  }.

  (** [_code_quality_suggestions(self, project)]. *)
Definition _code_quality_suggestions (self : FoundryCopilot)
      (project : FoundryProject) : list string :=
    [ "Follow consistent naming conventions";
      "Add comprehensive inline comments";
      "Implement proper error handling";
      "Use custom errors instead of strings for gas efficiency" ].

  (** [_architecture_suggestions(self, project)]. *)
Definition _architecture_suggestions (self : FoundryCopilot)
      (project : FoundryProject) : list string :=
    [ "Consider using proxy patterns for upgradeability";
      "Implement proper access control with roles";
      "Separate concerns using multiple contracts";
      "Consider using libraries for common functionality" ].

  (** [_testing_improvements(self, project)]. *)
Definition _testing_improvements (self : FoundryCopilot)
      (project : FoundryProject) : list string :=
    [ "Increase test coverage to >95%";
      "Add integration tests";
      "Implement property-based testing";
      "Add stress testing for gas limits" ].

  (** [_deployment_suggestions(self, project)]. *)
Definition _deployment_suggestions (self : FoundryCopilot)
      (project : FoundryProject) : list string :=
    [ "Use CREATE2 for deterministic addresses";
      "Implement proper deployment scripts";
      "Add deployment verification";
      "Consider multi-signature wallets for admin functions" ].

  (** [suggest_improvements(self, project)]. *)
Definition suggest_improvements (self : FoundryCopilot)
      (project : FoundryProject) (log : Log) : PyValue * Log :=
    let log :=
      logger_info ("Generating suggestions for project: " ++ name project)
        log in
    let strs := fun l => PyList (map PyStr l) in
    let improvements :=
      PyDict
        [ ("code_quality", strs (_code_quality_suggestions self project));
          ("architecture", strs (_architecture_suggestions self project));
          ("testing", strs (_testing_improvements self project));
          ("deployment", strs (_deployment_suggestions self project)) ] in
    (improvements, log).

  (** ** The handlers of [_setup_routes] *)

  (** [FoundryCopilot.__init__]. *)
Definition new_copilot (city_id neural_transport_url : string)
    : FoundryCopilot :=
    {| city_id := city_id;
       neural_transport_url := neural_transport_url;
       knowledge_base := PyDict [];
       active_projects := PyDict [] |}.

  (** [class ContractAnalysisRequest]. *)
Record ContractAnalysisRequest : Type := mkRequest {
    contract_code : string;
    project_name : string;
    optimization_level : Z
  }.

  (** How a call of a handler ends: it returns a dict or the response
      model, raises [HTTPException], or lets another exception escape. *)
Inductive Reply : Type :=
| Returned (body : PyValue)
| ReturnedModel (body : Dict)
| HTTPException (status_code : Z) (detail : string)
| Escaped (e : PyExc).

  (** A call of one of the four handlers that [_setup_routes] registers,
      with the arguments the framework passes to it once it has routed
      the request and validated its body. *)
Inductive Call : Type :=
| HealthCheck
| AnalyzeContract (request : ContractAnalysisRequest)
| ListProjects
| GetProjectSuggestions (project_name : string).

  (** What the handlers can touch: the copilot object and the two streams
      of log records, [logger.info] and [logger.error]. *)
Record Service : Type := mkService {
    copilot : FoundryCopilot;
    infos : Log;
    errors : Log
  }.

Section Routes.

    (** The constructor of the response model, called with the entries of
        [result] as keyword arguments; it validates what it is given. *)
    Variable ContractAnalysisResponse : Dict -> PyResult Dict.

    (** The object stored under a key of [active_projects], as the
        [FoundryProject] it is. *)
    Variable project_of : PyValue -> FoundryProject.

    (** [health_check()], the handler of [GET /health]. *)
Definition health_check (s : Service) : Reply * Service :=
      (Returned (PyDict [ ("status", PyStr "healthy");
                          ("city_id", PyStr (city_id (copilot s))) ]), s).

    (** [analyze_contract(request)], the handler of [POST /analyze]. *)
Definition analyze_contract_route (request : ContractAnalysisRequest)
        (s : Service) : Reply * Service :=
      let (result, log) :=
        analyze_contract (copilot s) (contract_code request) (infos s) in
      match ContractAnalysisResponse result with
      | Ok response =>
          (ReturnedModel response,
           {| copilot := copilot s; infos := log; errors := errors s |})
      | Raised e =>
          if exc_is_Exception e
          then (HTTPException 500 (exc_str e),
                {| copilot := copilot s; infos := log;
                   errors := logger_error
                               ("Contract analysis failed: " ++ exc_str e)
                               (errors s) |})
          else (Escaped e,
                {| copilot := copilot s; infos := log; errors := errors s |})
      end.

    (** [list_projects()], the handler of [GET /projects]. *)
Definition list_projects (s : Service) : Reply * Service :=
      (Returned
         (PyDict
            [ ("projects",
               PyList (map PyStr (dict_keys (active_projects (copilot s))))) ]),
       s).

    (** [get_project_suggestions(project_name)], the handler of
        [POST /projects/{project_name}/suggestions]. *)
Definition get_project_suggestions (project_name : string) (s : Service)
      : Reply * Service :=
      match dict_get project_name (active_projects (copilot s)) with
      | None => (HTTPException 404 "Project not found", s)
      | Some project =>
          let (suggestions, log) :=
            suggest_improvements (copilot s) (project_of project) (infos s) in
          (Returned suggestions,
           {| copilot := copilot s; infos := log; errors := errors s |})
      end.

Definition call (c : Call) (s : Service) : Reply * Service :=
      match c with
      | HealthCheck => health_check s
      | AnalyzeContract request => analyze_contract_route request s
      | ListProjects => list_projects s
      | GetProjectSuggestions project_name =>
          get_project_suggestions project_name s
      end.

    (** The calls made one after the other; how they end, oldest first. *)
Fixpoint call_all (cs : list Call) (s : Service)
      : list Reply * Service :=
      match cs with
      | [] => ([], s)
      | c :: rest =>
          let (reply, s1) := call c s in
          let (replies, s2) := call_all rest s1 in
          (reply :: replies, s2)
      end.

End Routes.

End Copilot.

(* ===================================================================== *)
(** * Properties of the snapshot computation *)
(* ===================================================================== *)

(** The five categories a snapshot must carry. *)
Definition categories : list string :=
  [ "infrastructure"; "development"; "ai_assistance";
    "neural_transport"; "city_integration" ].

(** Every category is a key of [m] and is mapped to a non-empty dict. *)
Definition category_complete (m : PyValue) : bool :=
  forallb (fun c => match dict_get c m with
                    | Some v => nonempty_mapping v
                    | None => false
                    end) categories.

(** The number of successors between [x] and [n]. *)
Ltac succ_depth x n :=
  lazymatch x with
  | n => constr:(O)
  | S ?y => let d := succ_depth y n in constr:(S d)
  end.

Section SnapshotFacts.

  Context {F : Type} `{PyFloat F}.

  (** The number of clock readings one [collect_metrics] makes:
      [datetime.now()] once and [time.time()] 26 times. *)
Definition readings_per_snapshot : nat := 27.


  (** What [collect_metrics] leaves behind: the snapshot in [self.metrics],
      the clock advanced by the readings, everything else as it was. *)
Lemma collect_metrics_world (w : World F) :
    snd (collect_metrics w) =
    {| self := {| metrics := fst (collect_metrics w);
                  alerts := alerts (self w);
                  performance_data := performance_data (self w);
                  connected_websockets := connected_websockets (self w) |};
       clock := {| feed := feed (clock w);
                   reads := readings_per_snapshot + reads (clock w) |};
       stdout := stdout w |}.
  Proof. reflexivity. Qed.

Lemma collect_metrics_shape (w1 w2 : World F) :
    key_shape (fst (collect_metrics w1)) = key_shape (fst (collect_metrics w2)).
  Proof. reflexivity. Qed.

Lemma collect_metrics_complete (w : World F) :
    category_complete (fst (collect_metrics w)) = true.
  Proof. reflexivity. Qed.


  (** The two calls make the same readings, one by one. *)
Definition same_readings (w1 w2 : World F) : Prop :=
    forall i, i < readings_per_snapshot ->
              feed (clock w1) (i + reads (clock w1))
              = feed (clock w2) (i + reads (clock w2)).

  (** The time at the moment of the call: the reading [datetime.now()]
      makes, the first of the call. *)
Definition called_at (t : F) (w : World F) : Prop :=
    feed (clock w) (reads (clock w)) = t.

  (** The snapshot is decided by the time at the moment of the call. *)
Definition snapshot_function_of_call_time : Prop :=
    forall (t : F) (w1 w2 : World F),
      called_at t w1 -> called_at t w2 ->
      fst (collect_metrics w1) = fst (collect_metrics w2).

Lemma collect_metrics_readings (w1 w2 : World F) :
    same_readings w1 w2 ->
    fst (collect_metrics w1) = fst (collect_metrics w2).
  Proof.
    destruct w1 as [d1 [f1 n1] o1], w2 as [d2 [f2 n2] o2].
    intros Hw. unfold same_readings in Hw.
    cbv [collect_metrics _infrastructure_metrics _development_metrics
         _ai_metrics _transport_metrics _integration_metrics
         gauge count drift datetime_now time_time set_metrics
         bind ret fst snd self clock stdout feed reads] in *.
    repeat match goal with
    | |- context [f1 ?x] =>
        let k := succ_depth x n1 in
        rewrite (Hw k ltac:(unfold readings_per_snapshot; lia)
                 : f1 x = f2 (k + n2))
    end.
    reflexivity.
  Qed.

Lemma collect_metrics_timestamp (w : World F) :
    dict_get "timestamp" (fst (collect_metrics w))
    = Some (PyStr (isoformat (feed (clock w) (reads (clock w))))).
  Proof. reflexivity. Qed.

Lemma collect_metrics_ignores_self (w : World F) (d : FoundryDashboard)
      (o : list string) :
    fst (collect_metrics {| self := d; clock := clock w; stdout := o |})
    = fst (collect_metrics w).
  Proof. apply collect_metrics_readings. intros i _. reflexivity. Qed.

End SnapshotFacts.

(* ===================================================================== *)
(** * Lists of sockets and tables of handlers *)
(* ===================================================================== *)

Lemma filter_absent (x : WebSocket) (l : list WebSocket) :
  ~ In x l -> filter (fun y => negb (Nat.eqb y x)) l = l.
Proof.
  induction l as [|y l IH]; simpl; intros Hx; [reflexivity|].
  destruct (Nat.eqb_spec y x) as [->|Hne]; simpl.
  - exfalso. apply Hx. now left.
  - rewrite IH; [reflexivity|]. intros Hin. apply Hx. now right.
Qed.

Lemma list_remove_absent (x : WebSocket) (l : list WebSocket) :
  ~ In x l -> list_remove x l = Raised ValueError_not_in_list.
Proof.
  induction l as [|y l IH]; simpl; intros Hx; [reflexivity|].
  destruct (Nat.eqb_spec y x) as [->|Hne].
  - exfalso. apply Hx. now left.
  - rewrite IH; [reflexivity|]. intros Hin. apply Hx. now right.
Qed.

Lemma list_remove_present (x : WebSocket) (l : list WebSocket) :
  NoDup l -> In x l ->
  list_remove x l = Ok (filter (fun y => negb (Nat.eqb y x)) l).
Proof.
  induction l as [|y l IH]; simpl; intros Hnd Hin; [contradiction|].
  inversion Hnd as [|? ? Hy Hl]; subst.
  destruct (Nat.eqb_spec y x) as [->|Hne]; simpl.
  - now rewrite filter_absent.
  - destruct Hin as [->|Hin]; [congruence|].
    now rewrite IH.
Qed.

Lemma map_fst_set_task ws a ts : map fst (set_task ws a ts) = map fst ts.
Proof.
  unfold set_task. rewrite map_map. apply map_ext. intros [w b]; simpl.
  destruct (Nat.eqb_spec w ws); simpl; congruence.
Qed.

Lemma map_fst_drop_task ws ts :
  map fst (drop_task ws ts)
  = filter (fun y => negb (Nat.eqb y ws)) (map fst ts).
Proof.
  unfold drop_task. induction ts as [|[w b] ts IH]; simpl; [reflexivity|].
  destruct (Nat.eqb w ws); simpl; now rewrite IH.
Qed.

Lemma task_of_In ws ts a : task_of ws ts = Some a -> In (ws, a) ts.
Proof.
  induction ts as [|[w b] ts IH]; simpl; [discriminate|].
  destruct (Nat.eqb_spec w ws) as [->|Hne]; intros E.
  - left. congruence.
  - right. now apply IH.
Qed.

Lemma task_of_key ws ts a : task_of ws ts = Some a -> In ws (map fst ts).
Proof.
  intros E. apply task_of_In in E. now apply (in_map fst) in E.
Qed.

Lemma In_task_of ws a ts :
  NoDup (map fst ts) -> In (ws, a) ts -> task_of ws ts = Some a.
Proof.
  induction ts as [|[w b] ts IH]; simpl; intros Hnd Hin; [contradiction|].
  inversion Hnd as [|? ? Hw Hts]; subst.
  destruct Hin as [E|Hin].
  - inversion E; subst. now rewrite Nat.eqb_refl.
  - destruct (Nat.eqb_spec w ws) as [->|Hne]; [|now apply IH].
    exfalso. apply Hw. now apply (in_map fst) in Hin.
Qed.

Lemma key_task_of ws ts :
  In ws (map fst ts) -> exists a, task_of ws ts = Some a.
Proof.
  induction ts as [|[w b] ts IH]; simpl; [contradiction|].
  destruct (Nat.eqb_spec w ws) as [->|Hne]; intros Hin.
  - now exists b.
  - destruct Hin as [E|Hin]; [congruence|]. now apply IH.
Qed.

Lemma In_set_task w b ws a ts :
  In (w, b) (set_task ws a ts) ->
  (w = ws /\ b = a) \/ (w <> ws /\ In (w, b) ts).
Proof.
  unfold set_task. rewrite in_map_iff. intros [[w' b'] [E Hin]].
  simpl in E. destruct (Nat.eqb_spec w' ws) as [->|Hne].
  - left. inversion E. now split.
  - right. inversion E; subst. now split.
Qed.

Lemma In_drop_task w b ws ts :
  In (w, b) (drop_task ws ts) <-> In (w, b) ts /\ w <> ws.
Proof.
  unfold drop_task. rewrite filter_In. simpl.
  destruct (Nat.eqb_spec w ws); simpl; intuition congruence.
Qed.

Lemma task_of_set_task_same ws a ts b :
  task_of ws ts = Some b -> task_of ws (set_task ws a ts) = Some a.
Proof.
  induction ts as [|[w c] ts IH]; simpl; [discriminate|].
  destruct (Nat.eqb_spec w ws) as [->|Hne]; simpl.
  - now rewrite Nat.eqb_refl.
  - destruct (Nat.eqb_spec w ws); [contradiction|]. exact IH.
Qed.

Lemma task_of_set_task_other w ws a ts :
  w <> ws -> task_of w (set_task ws a ts) = task_of w ts.
Proof.
  intros Hne. induction ts as [|[w' c] ts IH]; simpl; [reflexivity|].
  destruct (Nat.eqb_spec w' ws) as [->|Hne']; simpl.
  - destruct (Nat.eqb_spec ws w); [congruence|]. exact IH.
  - now rewrite IH.
Qed.

Lemma task_of_drop_task_other w ws ts :
  w <> ws -> task_of w (drop_task ws ts) = task_of w ts.
Proof.
  intros Hne. induction ts as [|[w' c] ts IH]; simpl; [reflexivity|].
  destruct (Nat.eqb_spec w' ws) as [->|Hne']; simpl.
  - destruct (Nat.eqb_spec ws w); [congruence|]. exact IH.
  - now rewrite IH.
Qed.

Lemma task_of_app_other w ws a ts :
  w <> ws -> task_of w (ts ++ [(ws, a)]) = task_of w ts.
Proof.
  intros Hne. induction ts as [|[w' c] ts IH]; simpl.
  - destruct (Nat.eqb_spec ws w); congruence.
  - now rewrite IH.
Qed.

Lemma NoDup_snoc (x : WebSocket) (l : list WebSocket) :
  NoDup l -> ~ In x l -> NoDup (l ++ [x]).
Proof.
  intros Hnd Hx. induction Hnd as [|y l Hy Hl IH]; simpl.
  - constructor; [intros []|constructor].
  - constructor.
    + rewrite in_app_iff. simpl. intros [Hin|[E|[]]]; [contradiction|].
      subst. apply Hx. now left.
    + apply IH. intros Hin. apply Hx. now right.
Qed.

(* ===================================================================== *)
(** * The event loop: equations of [step] and the invariant *)
(* ===================================================================== *)

(** From here on [collect_metrics] is used through the lemmas above. *)
Opaque collect_metrics.

Section ServerFacts.

  Context {F : Type} `{PyFloat F}.
  Variable dashboard_html : string.

  Abbreviation step1 := (step dashboard_html).
  Abbreviation runs := (run dashboard_html).
  Abbreviation Server := (@Server F).

Lemma next_payload_eq (w : World F) :
    next_payload w
    = (Json.dumps (fst (collect_metrics w)), snd (collect_metrics w)).
  Proof.
    unfold next_payload, bind, ret. now destruct (collect_metrics w).
  Qed.

Lemma serve_frame (r : Route) (w : World F) :
    alerts (self (snd (serve dashboard_html r w))) = alerts (self w)
    /\ connected_websockets (self (snd (serve dashboard_html r w)))
       = connected_websockets (self w).
  Proof. destruct r; split; reflexivity. Qed.

  (** The world in which the handler of [ws] ends after [e] was raised. *)
Definition left_world (ws : WebSocket) (e : PyExc) (w : World F) : World F :=
    snd (ws_leave ws e w).

Lemma ws_leave_registered ws e (w : World F) l :
    list_remove ws (connected_websockets (self w)) = Ok l ->
    ws_leave ws e w
    = (if exc_is_Exception e then None else Some e,
       set_connected l
         (if exc_is_Exception e
          then snd (print ("WebSocket error: " ++ exc_str e) w) else w)).
  Proof.
    intros E. unfold ws_leave, bind, ws_remove, print, ret.
    destruct (exc_is_Exception e); simpl; rewrite E; reflexivity.
  Qed.

Lemma ws_leave_unregistered ws e (w : World F) e' :
    list_remove ws (connected_websockets (self w)) = Raised e' ->
    fst (ws_leave ws e w) = Some e'
    /\ connected_websockets (self (snd (ws_leave ws e w)))
       = connected_websockets (self w).
  Proof.
    intros E. unfold ws_leave, bind, ws_remove, print, ret.
    destruct (exc_is_Exception e); simpl; rewrite E; split; reflexivity.
  Qed.

Lemma ws_leave_alerts ws e (w : World F) :
    alerts (self (snd (ws_leave ws e w))) = alerts (self w).
  Proof.
    unfold ws_leave, bind, ws_remove, print, ret.
    destruct (exc_is_Exception e); simpl;
      destruct (list_remove ws (connected_websockets (self w)));
      reflexivity.
  Qed.

Lemma step_http (s : Server) r :
    step1 s (Http r)
    = Some {| world := snd (serve dashboard_html r (world s));
              tasks := tasks s; next_ws := next_ws s;
              delivered := delivered s; exits := exits s;
              responses := (responses s
                            ++ [fst (serve dashboard_html r (world s))])%list |}.
  Proof.
    unfold step. destruct (serve dashboard_html r (world s)).
    reflexivity.
  Qed.

  (** The world right after a viewer was appended to the registry. *)
Definition joined (s : Server) : World F :=
    set_connected (registry s ++ [next_ws s])%list (world s).

Lemma step_accept (s : Server) :
    step1 s WsAccept
    = Some {| world := snd (collect_metrics (joined s));
              tasks := (tasks s
                        ++ [(next_ws s,
                             AwaitSend
                               (Json.dumps (fst (collect_metrics (joined s)))))])%list;
              next_ws := S (next_ws s);
              delivered := delivered s; exits := exits s;
              responses := responses s |}.
  Proof.
    cbv beta iota zeta delta [step ws_append].
    fold (registry s). fold (joined s).
    now rewrite next_payload_eq.
  Qed.

Lemma step_sent (s : Server) ws payload :
    task_of ws (tasks s) = Some (AwaitSend payload) ->
    step1 s (WsSent ws)
    = Some {| world := world s;
              tasks := set_task ws (AwaitSleep 5) (tasks s);
              next_ws := next_ws s;
              delivered := (delivered s ++ [(ws, payload)])%list;
              exits := exits s; responses := responses s |}.
  Proof. intros E. unfold step. now rewrite E. Qed.

Lemma step_wake (s : Server) ws d :
    task_of ws (tasks s) = Some (AwaitSleep d) ->
    step1 s (WsWake ws)
    = Some {| world := snd (collect_metrics (world s));
              tasks := set_task ws
                         (AwaitSend (Json.dumps (fst (collect_metrics (world s)))))
                         (tasks s);
              next_ws := next_ws s;
              delivered := delivered s; exits := exits s;
              responses := responses s |}.
  Proof.
    intros E. unfold step. rewrite E. now rewrite next_payload_eq.
  Qed.

Lemma step_raise (s : Server) ws e a :
    task_of ws (tasks s) = Some a ->
    step1 s (WsRaise ws e)
    = Some {| world := snd (ws_leave ws e (world s));
              tasks := drop_task ws (tasks s);
              next_ws := next_ws s;
              delivered := delivered s;
              exits := (exits s ++ [(ws, fst (ws_leave ws e (world s)))])%list;
              responses := responses s |}.
  Proof.
    intros E. unfold step. rewrite E.
    destruct (ws_leave ws e (world s)). reflexivity.
  Qed.

Lemma run_app (s : Server) evs1 evs2 :
    runs s (evs1 ++ evs2)
    = match runs s evs1 with
      | Some s1 => runs s1 evs2
      | None => None
      end.
  Proof.
    revert s. induction evs1 as [|ev evs1 IH]; intros s; simpl; [reflexivity|].
    destruct (step1 s ev); [apply IH|reflexivity].
  Qed.

  (** What holds of every state the server can be in. *)
Record Inv (s : Server) : Prop := {
    inv_tasks : map fst (tasks s) = registry s;
    inv_nodup : NoDup (registry s);
    inv_fresh : forall w, In w (registry s) -> w < next_ws s;
    inv_alerts : alerts (self (world s)) = [];
    inv_sleep : forall w d, In (w, AwaitSleep d) (tasks s) -> d = 5%Z;
    inv_send : forall w p, In (w, AwaitSend p) (tasks s) ->
                 exists w0 : World F, p = Json.dumps (fst (collect_metrics w0))
  }.

Lemma Inv_boot (c : Clock F) : Inv (boot c).
  Proof.
    constructor; simpl.
    - reflexivity.
    - constructor.
    - intros w [].
    - reflexivity.
    - intros w d [].
    - intros w p [].
  Qed.

Lemma Inv_step (s s' : Server) ev :
    Inv s -> step1 s ev = Some s' -> Inv s'.
  Proof.
    intros [Ht Hnd Hfr Hal Hsl Hse] Hstep.
    destruct ev as [r| |e|ws|ws|ws e].
    - rewrite step_http in Hstep. inversion Hstep; subst; clear Hstep.
      destruct (serve_frame r (world s)) as [Ea Ec].
      constructor; unfold registry in *; simpl;
        try rewrite Ec; try rewrite Ea; assumption.
    - rewrite step_accept in Hstep. inversion Hstep; subst; clear Hstep.
      constructor; unfold registry in *; simpl;
        rewrite ?collect_metrics_world; unfold joined, registry; simpl.
      + rewrite map_app, Ht. reflexivity.
      + apply NoDup_snoc; [assumption|]. intros Hin. apply Hfr in Hin. lia.
      + intros w. rewrite in_app_iff. simpl. intros [Hin|[E|[]]].
        * apply Hfr in Hin. lia.
        * subst. lia.
      + exact Hal.
      + intros w d. rewrite in_app_iff. simpl.
        intros [Hin|[E|[]]]; [eauto|discriminate].
      + intros w p. rewrite in_app_iff. simpl.
        intros [Hin|[E|[]]]; [eauto|].
        match type of E with context [collect_metrics ?x] => exists x end.
        congruence.
    - simpl in Hstep. inversion Hstep; subst; clear Hstep.
      constructor; unfold registry in *; simpl; try assumption.
      intros w Hw. apply Hfr in Hw. lia.
    - destruct (task_of ws (tasks s)) as [[payload|d]|] eqn:E;
        [ | unfold step in Hstep; rewrite E in Hstep; discriminate
          | unfold step in Hstep; rewrite E in Hstep; discriminate].
      rewrite (step_sent _ _ _ E) in Hstep. inversion Hstep; subst; clear Hstep.
      constructor; unfold registry in *; simpl; try assumption.
      + now rewrite map_fst_set_task.
      + intros w d Hin.
        apply In_set_task in Hin as [[_ E']|[_ Hin]]; [congruence|eauto].
      + intros w p Hin.
        apply In_set_task in Hin as [[_ E']|[_ Hin]]; [congruence|eauto].
    - destruct (task_of ws (tasks s)) as [[payload|d]|] eqn:E;
        [unfold step in Hstep; rewrite E in Hstep; discriminate
        | | unfold step in Hstep; rewrite E in Hstep; discriminate].
      rewrite (step_wake _ _ _ E) in Hstep. inversion Hstep; subst; clear Hstep.
      constructor; unfold registry in *; simpl;
        rewrite ?collect_metrics_world; simpl; try assumption.
      + now rewrite map_fst_set_task.
      + intros w d' Hin.
        apply In_set_task in Hin as [[_ E']|[_ Hin]]; [congruence|eauto].
      + intros w p Hin. apply In_set_task in Hin as [[_ E']|[_ Hin]]; [|eauto].
        exists (world s). congruence.
    - destruct (task_of ws (tasks s)) as [a|] eqn:E;
        [|unfold step in Hstep; rewrite E in Hstep; discriminate].
      rewrite (step_raise _ _ _ _ E) in Hstep. inversion Hstep; subst; clear Hstep.
      assert (Hin : In ws (registry s))
        by (rewrite <- Ht; eapply task_of_key; eauto).
      pose proof (list_remove_present ws _ Hnd Hin) as Hrm.
      unfold registry in *.
      rewrite (ws_leave_registered _ e _ _ Hrm).
      constructor; unfold registry; simpl.
      + rewrite map_fst_drop_task, Ht. reflexivity.
      + now apply NoDup_filter.
      + intros w Hw. apply filter_In in Hw as [Hw _]. now apply Hfr.
      + destruct (exc_is_Exception e); exact Hal.
      + intros w d Hw. apply In_drop_task in Hw as [Hw _]. eauto.
      + intros w p Hw. apply In_drop_task in Hw as [Hw _]. eauto.
  Qed.

Lemma Inv_run (s s' : Server) evs :
    Inv s -> runs s evs = Some s' -> Inv s'.
  Proof.
    revert s. induction evs as [|ev evs IH]; intros s HI Hrun; simpl in Hrun.
    - now inversion Hrun; subst.
    - destruct (step1 s ev) as [s1|] eqn:E; [|discriminate].
      eapply IH; [|eassumption]. eapply Inv_step; eassumption.
  Qed.

Lemma Inv_reachable (c : Clock F) evs (s : Server) :
    runs (boot c) evs = Some s -> Inv s.
  Proof. apply Inv_run, Inv_boot. Qed.

End ServerFacts.

(* ===================================================================== *)
(** * Results about the snapshot, the alert list and the gas analysis *)
(* ===================================================================== *)

Section SnapshotClaims.

  Context {F : Type} `{PyFloat F}.

  (** C1.  At every call time and whatever the viewer registry holds,
      [collect_metrics] returns a payload in which each of the five
      categories infrastructure, development, ai_assistance,
      neural_transport and city_integration is a key mapped to a non-empty
      mapping; [GET /metrics] answers with exactly that payload. *)
Theorem snapshot_has_all_categories (w : World F) :
    category_complete (fst (collect_metrics w)) = true
    /\ fst (get_metrics w) = JSONResponse (fst (collect_metrics w))
    /\ snd (get_metrics w) = snd (collect_metrics w).
  Proof.
    split; [apply collect_metrics_complete|].
    unfold get_metrics, bind, ret.
    destruct (collect_metrics w); split; reflexivity.
  Qed.

  (** C7, as the code has it.  The snapshot is a function of the clock
      readings that the call makes, not of the time of the call alone:
      two runs of [collect_metrics] whose 27 readings agree one by one
      return equal snapshots, whatever else the two states hold; and the
      category and metric keys of the result are the same at all times. *)
Theorem snapshot_function_of_its_readings (w1 w2 : World F) :
    same_readings w1 w2 ->
    fst (collect_metrics w1) = fst (collect_metrics w2)
    /\ (forall u1 u2 : World F,
          key_shape (fst (collect_metrics u1))
          = key_shape (fst (collect_metrics u2))).
  Proof.
    intros Hw. split.
    - exact (collect_metrics_readings w1 w2 Hw).
    - exact collect_metrics_shape.
  Qed.

  (** C10.  A call of [collect_metrics] builds a new snapshot and stores
      in [self.metrics] exactly the snapshot it returns: what is stored
      afterwards has all five categories and the time stamp of the clock
      reading made at the call, and it owes nothing to what the cache held
      before.  The alert list, the viewer registry, [performance_data] and
      the standard output are left as they were. *)
Theorem collect_metrics_updates_only_cache (w : World F) :
    metrics (self (snd (collect_metrics w))) = fst (collect_metrics w)
    /\ category_complete (metrics (self (snd (collect_metrics w)))) = true
    /\ dict_get "timestamp" (metrics (self (snd (collect_metrics w))))
       = Some (PyStr (isoformat (feed (clock w) (reads (clock w)))))
    /\ (forall stale : PyValue,
          metrics (self (snd (collect_metrics (snd (set_metrics stale w)))))
          = metrics (self (snd (collect_metrics w))))
    /\ reads (clock (snd (collect_metrics w)))
       = readings_per_snapshot + reads (clock w)
    /\ alerts (self (snd (collect_metrics w))) = alerts (self w)
    /\ connected_websockets (self (snd (collect_metrics w)))
       = connected_websockets (self w)
    /\ performance_data (self (snd (collect_metrics w)))
       = performance_data (self w)
    /\ stdout (snd (collect_metrics w)) = stdout w.
  Proof.
    rewrite collect_metrics_world. cbn [self metrics clock reads].
    split; [reflexivity|].
    split; [apply collect_metrics_complete|].
    split; [apply collect_metrics_timestamp|].
    split.
    - intros stale. rewrite collect_metrics_world. cbn [self metrics].
      apply (collect_metrics_ignores_self w).
    - repeat split.
  Qed.

End SnapshotClaims.

(** C9.  The gas analysis is a constant function: whatever the contract
    code (and the copilot instance and the log so far), [_gas_analysis]
    returns the same fixed mapping of placeholder numbers and
    suggestions. *)
Theorem gas_analysis_is_constant
    (self1 self2 : Copilot.FoundryCopilot) (code1 code2 : string)
    (log1 log2 : Copilot.Log) :
  fst (Copilot._gas_analysis self1 code1 log1)
  = fst (Copilot._gas_analysis self2 code2 log2)
  /\ fst (Copilot._gas_analysis self1 code1 log1)
     = PyDict
         [ ("estimated_gas", PyInt 50000);
           ("optimization_potential", PyStr "15%");
           ("suggestions",
            PyList
              [ PyStr "Use uint256 instead of smaller uints for gas efficiency";
                PyStr "Pack struct variables to minimize storage slots";
                PyStr "Consider using immutable variables where possible" ]) ].
Proof. split; reflexivity. Qed.

(** Two calls that make the same readings of a running clock and differ
    in everything else: the dashboard state, the output, the readings the
    clock has given before and those it gives later. *)
Definition early_world : World Q :=
  {| self := new_dashboard;
     clock := Exact.ticking 1700000000 (1 # 10);
     stdout := [] |}.

Definition late_world : World Q :=
  {| self := {| metrics := PyDict [("stale", PyInt 1)];
                alerts := [];
                performance_data := PyDict [];
                connected_websockets := [4; 7] |};
     clock := {| feed := fun n =>
                   if (n <? 30)%nat
                   then feed (Exact.ticking 1700000000 (1 # 10)) (n - 3)
                   else 0%Q;
                 reads := 3 |};
     stdout := ["WebSocket error: gone"] |}.

Lemma snapshot_function_of_its_readings_witness :
  same_readings early_world late_world
  /\ fst (collect_metrics early_world) = fst (collect_metrics late_world).
Proof.
  assert (Hw : same_readings early_world late_world).
  { intros i Hi. unfold readings_per_snapshot in Hi.
    do 27 (destruct i as [|i]; [vm_compute; reflexivity|]). lia. }
  split; [exact Hw|].
  exact (proj1 (snapshot_function_of_its_readings early_world late_world Hw)).
Defined.

(** Two calls made at the same time, 2023-11-14T22:13:20: during the one
    the clock stands still, during the other it advances by a tenth of a
    second from reading to reading. *)
Definition still_world : World Q :=
  {| self := new_dashboard;
     clock := Exact.frozen 1700000000;
     stdout := [] |}.

Definition moving_world : World Q :=
  {| self := new_dashboard;
     clock := Exact.ticking 1700000000 (1 # 10);
     stdout := [] |}.

(** A metric of a snapshot. *)
Definition metric (category key : string) (m : PyValue) : option PyValue :=
  match dict_get category m with
  | Some d => dict_get key d
  | None => None
  end.

(** C7, as the claim states it, fails: the two calls are made at the same
    time and carry the same time stamp, yet the latency they report is
    [2.0ms] in the one and [2.1ms] in the other, because each metric reads
    the clock again. *)
Lemma snapshot_depends_on_later_readings :
  called_at 1700000000%Q still_world
  /\ called_at 1700000000%Q moving_world
  /\ dict_get "timestamp" (fst (collect_metrics still_world))
     = dict_get "timestamp" (fst (collect_metrics moving_world))
  /\ metric "infrastructure" "anvil_rpc_latency"
       (fst (collect_metrics still_world)) = Some (PyStr "2.0ms")
  /\ metric "infrastructure" "anvil_rpc_latency"
       (fst (collect_metrics moving_world)) = Some (PyStr "2.1ms")
  /\ ~ @snapshot_function_of_call_time Q Exact.float.
Proof.
  assert (H1 : called_at 1700000000%Q still_world)
    by (vm_compute; reflexivity).
  assert (H2 : called_at 1700000000%Q moving_world)
    by (vm_compute; reflexivity).
  split; [exact H1|]. split; [exact H2|].
  split; [vm_compute; reflexivity|].
  split; [vm_compute; reflexivity|].
  split; [vm_compute; reflexivity|].
  intros Hc.
  pose proof (f_equal (metric "infrastructure" "anvil_rpc_latency")
                (Hc _ _ _ H1 H2)) as E.
  vm_compute in E. discriminate E.
Qed.

(* ===================================================================== *)
(** * Results about the registry and the alert list *)
(* ===================================================================== *)

(** What the registry should hold after a sequence of events, read off
    the events alone: an accepted connection adds its socket, an exception
    in a handler (disconnect, failed delivery, cancellation) takes its
    socket away; nothing else touches it.  [next] is the identity the next
    socket object gets. *)
Fixpoint live_after (evs : list Event) (next : nat) (live : list WebSocket)
  : list WebSocket :=
  match evs with
  | [] => live
  | WsAccept :: rest => live_after rest (S next) (live ++ [next])%list
  | WsAcceptError _ :: rest => live_after rest (S next) live
  | WsRaise ws _ :: rest =>
      live_after rest next (filter (fun y => negb (Nat.eqb y ws)) live)
  | _ :: rest => live_after rest next live
  end.

(** The empty-alerts payload. *)
Definition no_alerts : Response :=
  JSONResponse (PyDict [ ("alerts", PyList []) ]).

Section RegistryClaims.

Context {F : Type} `{PyFloat F}.
Variable dashboard_html : string.

Abbreviation step1 := (step dashboard_html).
Abbreviation runs := (run dashboard_html).

Lemma run_snoc (s : @Server F) evs ev :
  runs s (evs ++ [ev])
  = match runs s evs with
    | Some s1 => step1 s1 ev
    | None => None
    end.
Proof.
  rewrite run_app. destruct (runs s evs) as [s1|]; [|reflexivity].
  simpl. now destruct (step1 s1 ev).
Qed.

(** One event moves the registry and the identity counter as
    [live_after] says. *)
Lemma step_tracks (s s' : @Server F) ev rest :
  Inv s -> step1 s ev = Some s' ->
  live_after (ev :: rest) (next_ws s) (registry s)
  = live_after rest (next_ws s') (registry s').
Proof.
  intros HI Hstep. destruct ev as [r| |e|ws|ws|ws e].
  - rewrite step_http in Hstep. inversion Hstep; subst; clear Hstep.
    unfold registry; simpl.
    now rewrite (proj2 (serve_frame dashboard_html r (world s))).
  - rewrite step_accept in Hstep. inversion Hstep; subst; clear Hstep.
    unfold registry; simpl. rewrite collect_metrics_world. reflexivity.
  - simpl in Hstep. inversion Hstep; subst; clear Hstep. reflexivity.
  - destruct (task_of ws (tasks s)) as [[payload|d]|] eqn:E;
      [ | unfold step in Hstep; rewrite E in Hstep; discriminate
        | unfold step in Hstep; rewrite E in Hstep; discriminate].
    rewrite (step_sent _ _ _ _ E) in Hstep.
    inversion Hstep; subst; clear Hstep. reflexivity.
  - destruct (task_of ws (tasks s)) as [[payload|d]|] eqn:E;
      [unfold step in Hstep; rewrite E in Hstep; discriminate
      | | unfold step in Hstep; rewrite E in Hstep; discriminate].
    rewrite (step_wake _ _ _ _ E) in Hstep.
    inversion Hstep; subst; clear Hstep.
    unfold registry; simpl. rewrite collect_metrics_world. reflexivity.
  - destruct (task_of ws (tasks s)) as [a|] eqn:E;
      [|unfold step in Hstep; rewrite E in Hstep; discriminate].
    rewrite (step_raise _ _ _ _ _ E) in Hstep.
    inversion Hstep; subst; clear Hstep.
    assert (Hin : In ws (registry s))
      by (rewrite <- (inv_tasks _ HI); eapply task_of_key; eauto).
    pose proof (list_remove_present ws _ (inv_nodup _ HI) Hin) as Hrm.
    unfold registry in *; simpl.
    rewrite (ws_leave_registered _ e _ _ Hrm). reflexivity.
Qed.

Lemma run_tracks (s s' : @Server F) evs :
  Inv s -> runs s evs = Some s' ->
  registry s' = live_after evs (next_ws s) (registry s).
Proof.
  revert s. induction evs as [|ev evs IH]; intros s HI Hrun; simpl in Hrun.
  - inversion Hrun; subst. reflexivity.
  - destruct (step1 s ev) as [s1|] eqn:E; [|discriminate].
    rewrite (step_tracks _ _ _ evs HI E).
    apply IH; [|assumption]. eapply Inv_step; eassumption.
Qed.

(** C4.  Take any finite sequence of connections, handler exits and
    other events, and stop it at any point: the registry then holds
    exactly the sockets that were accepted and whose handler has not yet
    ended (by disconnect or by a failed delivery), and it holds none of
    them twice. *)
Theorem registry_tracks_live_handles
    (c : Clock F) (evs1 evs2 : list Event) (s : @Server F) :
  runs (boot c) (evs1 ++ evs2) = Some s ->
  exists s1,
    runs (boot c) evs1 = Some s1
    /\ registry s1 = live_after evs1 0 []
    /\ NoDup (registry s1)
    /\ registry s = live_after (evs1 ++ evs2) 0 []
    /\ NoDup (registry s).
Proof.
  intros Hrun. pose proof Hrun as Hall. rewrite run_app in Hrun.
  destruct (runs (boot c) evs1) as [s1|] eqn:E1; [|discriminate].
  exists s1. split; [reflexivity|].
  pose proof (Inv_boot c) as H0.
  pose proof (Inv_run dashboard_html _ _ _ H0 E1) as H1.
  pose proof (Inv_run dashboard_html _ _ _ H0 Hall) as H2.
  repeat split.
  - exact (run_tracks _ _ _ H0 E1).
  - exact (inv_nodup _ H1).
  - exact (run_tracks _ _ _ H0 Hall).
  - exact (inv_nodup _ H2).
Qed.

(** C8.  In every state the dashboard can reach the stored alert list is
    empty, so [GET /alerts] answers with an empty alert list (and leaves
    the list empty). *)
Theorem alerts_always_empty (c : Clock F) (evs : list Event) (s : @Server F) :
  runs (boot c) evs = Some s ->
  alerts (self (world s)) = []
  /\ fst (get_alerts (world s)) = no_alerts
  /\ exists s',
       step1 s (Http GetAlerts) = Some s'
       /\ responses s' = (responses s ++ [no_alerts])%list
       /\ alerts (self (world s')) = [].
Proof.
  intros Hrun.
  pose proof (Inv_reachable dashboard_html _ _ _ Hrun) as HI.
  pose proof (inv_alerts _ HI) as Ha.
  assert (Hg : fst (get_alerts (world s)) = no_alerts)
    by (unfold get_alerts, no_alerts; simpl; now rewrite Ha).
  split; [exact Ha|]. split; [exact Hg|].
  eexists. split; [apply step_http|]. simpl. split.
  - unfold no_alerts. now rewrite Ha.
  - exact Ha.
Qed.

End RegistryClaims.

(* ===================================================================== *)
(** * Results about the push loop *)
(* ===================================================================== *)

(** [n] further rounds of the loop of one handler: its sleep runs out,
    its next send completes. *)
Fixpoint iterations (ws : WebSocket) (n : nat) : list Event :=
  match n with
  | O => []
  | S n' => WsWake ws :: WsSent ws :: iterations ws n'
  end.

Lemma task_of_app_l ws a ts l :
  task_of ws ts = Some a -> task_of ws (ts ++ l) = Some a.
Proof.
  induction ts as [|[w b] ts IH]; simpl; [discriminate|].
  destruct (Nat.eqb w ws); [trivial|exact IH].
Qed.

Lemma task_of_app_fresh ws a ts :
  task_of ws ts = None -> task_of ws (ts ++ [(ws, a)]) = Some a.
Proof.
  induction ts as [|[w b] ts IH]; simpl.
  - now rewrite Nat.eqb_refl.
  - destruct (Nat.eqb w ws); [discriminate|exact IH].
Qed.

Lemma task_of_absent ws ts : ~ In ws (map fst ts) -> task_of ws ts = None.
Proof.
  intros Hn. destruct (task_of ws ts) as [a|] eqn:E; [|reflexivity].
  exfalso. apply Hn. eapply task_of_key; eauto.
Qed.

Lemma task_of_drop_task_same ws ts : task_of ws (drop_task ws ts) = None.
Proof.
  apply task_of_absent. rewrite map_fst_drop_task, filter_In.
  intros [_ Hneq]. now rewrite Nat.eqb_refl in Hneq.
Qed.

Section DisconnectClaims.

Context {F : Type} `{PyFloat F}.
Variable dashboard_html : string.

Abbreviation step1 := (step dashboard_html).
Abbreviation runs := (run dashboard_html).






End DisconnectClaims.

Section LoopClaims.

Context {F : Type} `{PyFloat F}.
Variable dashboard_html : string.

Abbreviation step1 := (step dashboard_html).
Abbreviation runs := (run dashboard_html).

Lemma run_cons (s : @Server F) ev rest :
  runs s (ev :: rest)
  = match step1 s ev with
    | Some s1 => runs s1 rest
    | None => None
    end.
Proof. reflexivity. Qed.

Lemma run_nil (s : @Server F) : runs s [] = Some s.
Proof. reflexivity. Qed.

Lemma frames_of_sent (s : @Server F) ws payload :
  frames_of ws
    {| world := world s;
       tasks := set_task ws (AwaitSleep 5) (tasks s);
       next_ws := next_ws s;
       delivered := (delivered s ++ [(ws, payload)])%list;
       exits := exits s; responses := responses s |}
  = (frames_of ws s ++ [payload])%list.
Proof.
  unfold frames_of. simpl. rewrite filter_app, map_app. simpl.
  now rewrite Nat.eqb_refl.
Qed.

(** A registered viewer gets its next frame whatever state the others
    are in: at most its sleep has to run out first. *)
Lemma next_push (s : @Server F) v :
  Inv s -> In v (registry s) ->
  exists evs' s' p,
    runs s evs' = Some s'
    /\ delivered s' = (delivered s ++ [(v, p)])%list
    /\ registry s' = registry s.
Proof.
  intros HI Hin. rewrite <- (inv_tasks _ HI) in Hin.
  destruct (key_task_of _ _ Hin) as [[p|d] E].
  - exists [WsSent v]. eexists. exists p.
    rewrite run_cons, (step_sent _ _ _ _ E), run_nil.
    split; [reflexivity|]. split; reflexivity.
  - exists [WsWake v; WsSent v]. eexists. eexists.
    rewrite run_cons, (step_wake _ _ _ _ E), run_cons.
    erewrite step_sent
      by (simpl; eapply task_of_set_task_same; exact E).
    rewrite run_nil. split; [reflexivity|]. simpl. split; [reflexivity|].
    unfold registry. simpl. now rewrite collect_metrics_world.
Qed.

(** C5.  When the pending [await] of one viewer's handler raises (a failed
    delivery), that viewer is out of the registry at once, hence before
    anything further is sent; the handlers of all other viewers are
    exactly where they were, nothing is delivered or reported to them,
    only the failing handler ends; and every viewer still registered can
    be sent its next frame. *)
Theorem failure_is_isolated
    (c : Clock F) (evs : list Event) (s s' : @Server F)
    (ws : WebSocket) (e : PyExc) :
  runs (boot c) evs = Some s ->
  step1 s (WsRaise ws e) = Some s' ->
  ~ In ws (registry s')
  /\ (forall v, v <> ws -> task_of v (tasks s') = task_of v (tasks s))
  /\ (forall v, v <> ws -> In v (registry s) -> In v (registry s'))
  /\ delivered s' = delivered s
  /\ (exists r, exits s' = (exits s ++ [(ws, r)])%list)
  /\ (forall v, In v (registry s') ->
        exists evs' s'' p,
          runs s' evs' = Some s''
          /\ delivered s'' = (delivered s' ++ [(v, p)])%list
          /\ registry s'' = registry s').
Proof.
  intros Hrun Hstep.
  pose proof (Inv_reachable dashboard_html _ _ _ Hrun) as HI.
  pose proof (Inv_step dashboard_html _ _ _ HI Hstep) as HI'.
  destruct (task_of ws (tasks s)) as [a|] eqn:E;
    [|unfold step in Hstep; rewrite E in Hstep; discriminate].
  assert (Hin : In ws (registry s))
    by (rewrite <- (inv_tasks _ HI); eapply task_of_key; eauto).
  pose proof (list_remove_present ws _ (inv_nodup _ HI) Hin) as Hrm.
  assert (Hreg : registry s'
                 = filter (fun y => negb (Nat.eqb y ws)) (registry s)).
  { rewrite (step_raise _ _ _ _ _ E) in Hstep.
    inversion Hstep; subst; clear Hstep.
    unfold registry in *; simpl.
    now rewrite (ws_leave_registered _ e _ _ Hrm). }
  rewrite (step_raise _ _ _ _ _ E) in Hstep.
  inversion Hstep as [Hs']. rewrite Hs'. clear Hstep.
  split; [|split; [|split; [|split; [|split]]]].
  - rewrite Hreg, filter_In. intros [_ Hneq].
    now rewrite Nat.eqb_refl in Hneq.
  - intros v Hv. rewrite <- Hs'. simpl. now apply task_of_drop_task_other.
  - intros v Hv Hv'. rewrite Hreg, filter_In. split; [exact Hv'|].
    destruct (Nat.eqb_spec v ws); [contradiction|reflexivity].
  - rewrite <- Hs'. reflexivity.
  - rewrite <- Hs'. simpl. eexists. reflexivity.
  - intros v Hv. now apply next_push.
Qed.

Lemma loop_iterates (v : WebSocket) (n : nat) :
  forall s : @Server F,
    task_of v (tasks s) = Some (AwaitSleep 5) ->
    exists s',
      runs s (iterations v n) = Some s'
      /\ List.length (frames_of v s') = n + List.length (frames_of v s)
      /\ task_of v (tasks s') = Some (AwaitSleep 5)
      /\ registry s' = registry s.
Proof.
  induction n as [|n IH]; intros s E.
  - exists s. repeat split; assumption.
  - simpl iterations.
    rewrite run_cons, (step_wake _ _ _ _ E), run_cons.
    erewrite step_sent
      by (simpl; eapply task_of_set_task_same; exact E).
    match goal with
    | |- exists s', runs ?s2 _ = _ /\ _ =>
        destruct (IH s2) as (s' & R & L & T & G)
    end.
    { simpl. eapply task_of_set_task_same.
      eapply task_of_set_task_same. exact E. }
    exists s'. split; [exact R|]. split; [|split; [exact T|]].
    + rewrite L, frames_of_sent, length_app. simpl.
      unfold frames_of. simpl. lia.
    + rewrite G. unfold registry. simpl. now rewrite collect_metrics_world.
Qed.

(** C6.  A connection is registered when it is accepted and its first
    frame is prepared at once; from then on the handler of every
    registered viewer is either sending a serialised snapshot or sleeping
    for 5 time units; a completed send delivers the frame and starts the
    sleep of 5; the end of the sleep starts the send of a fresh
    serialised snapshot; any number of such rounds can follow one
    another; and the handler leaves the loop only when its pending [await]
    raises (disconnect, failed delivery, cancellation at shutdown), which
    also ends it. *)
Theorem push_loop_lifecycle
    (c : Clock F) (evs : list Event) (s : @Server F) :
  runs (boot c) evs = Some s ->
  (exists s1 w0,
      step1 s WsAccept = Some s1
      /\ registry s1 = (registry s ++ [next_ws s])%list
      /\ task_of (next_ws s) (tasks s1)
         = Some (AwaitSend (Json.dumps (fst (collect_metrics w0)))))
  /\ (forall v, In v (registry s) ->
        (exists w0 : World F,
            task_of v (tasks s)
            = Some (AwaitSend (Json.dumps (fst (collect_metrics w0)))))
        \/ task_of v (tasks s) = Some (AwaitSleep 5))
  /\ (forall v p, task_of v (tasks s) = Some (AwaitSend p) ->
        exists s1,
          step1 s (WsSent v) = Some s1
          /\ delivered s1 = (delivered s ++ [(v, p)])%list
          /\ task_of v (tasks s1) = Some (AwaitSleep 5))
  /\ (forall v d, task_of v (tasks s) = Some (AwaitSleep d) ->
        d = 5%Z
        /\ exists s1,
             step1 s (WsWake v) = Some s1
             /\ task_of v (tasks s1)
                = Some (AwaitSend
                          (Json.dumps (fst (collect_metrics (world s))))))
  /\ (forall v n, task_of v (tasks s) = Some (AwaitSleep 5) ->
        exists s',
          runs s (iterations v n) = Some s'
          /\ List.length (frames_of v s') = n + List.length (frames_of v s)
          /\ task_of v (tasks s') = Some (AwaitSleep 5))
  /\ (forall v a ev s1,
        task_of v (tasks s) = Some a ->
        step1 s ev = Some s1 ->
        (forall e, ev <> WsRaise v e) ->
        In v (registry s1) /\ exists a', task_of v (tasks s1) = Some a')
  /\ (forall v e s1,
        step1 s (WsRaise v e) = Some s1 ->
        task_of v (tasks s1) = None /\ ~ In v (registry s1)).
Proof.
  intros Hrun.
  pose proof (Inv_reachable dashboard_html _ _ _ Hrun) as HI.
  split; [|split; [|split; [|split; [|split; [|split]]]]].
  - eexists. exists (joined s). split; [apply step_accept|]. simpl. split.
    + unfold registry. simpl. rewrite collect_metrics_world. reflexivity.
    + apply task_of_app_fresh. apply task_of_absent.
      rewrite (inv_tasks _ HI). intros Hin.
      apply (inv_fresh _ HI) in Hin. lia.
  - intros v Hin. rewrite <- (inv_tasks _ HI) in Hin.
    destruct (key_task_of _ _ Hin) as [[p|d] E].
    + left. destruct (inv_send _ HI v p (task_of_In _ _ _ E)) as [w0 ->].
      now exists w0.
    + right. now rewrite (inv_sleep _ HI v d (task_of_In _ _ _ E)) in E.
  - intros v p E. eexists. split; [exact (step_sent _ _ _ _ E)|].
    simpl. split; [reflexivity|].
    eapply task_of_set_task_same; exact E.
  - intros v d E. split; [exact (inv_sleep _ HI v d (task_of_In _ _ _ E))|].
    eexists. split; [exact (step_wake _ _ _ _ E)|].
    simpl. eapply task_of_set_task_same; exact E.
  - intros v n E. destruct (loop_iterates v n s E) as (s' & R & L & T & _).
    exists s'. repeat split; assumption.
  - intros v a ev s1 E Hstep Hne.
    pose proof (Inv_step dashboard_html _ _ _ HI Hstep) as HI1.
    assert (Ht : exists a', task_of v (tasks s1) = Some a').
    { destruct ev as [r| |e|ws|ws|ws e].
      - rewrite step_http in Hstep. inversion Hstep; subst. simpl. eauto.
      - rewrite step_accept in Hstep. inversion Hstep; subst. simpl.
        exists a. now apply task_of_app_l.
      - simpl in Hstep. inversion Hstep; subst. simpl. eauto.
      - destruct (task_of ws (tasks s)) as [[payload|d]|] eqn:E';
          [ | unfold step in Hstep; rewrite E' in Hstep; discriminate
            | unfold step in Hstep; rewrite E' in Hstep; discriminate].
        rewrite (step_sent _ _ _ _ E') in Hstep. inversion Hstep; subst.
        simpl. destruct (Nat.eq_dec v ws) as [->|Hv].
        + eexists. eapply task_of_set_task_same; exact E'.
        + exists a. now rewrite task_of_set_task_other.
      - destruct (task_of ws (tasks s)) as [[payload|d]|] eqn:E';
          [unfold step in Hstep; rewrite E' in Hstep; discriminate
          | | unfold step in Hstep; rewrite E' in Hstep; discriminate].
        rewrite (step_wake _ _ _ _ E') in Hstep. inversion Hstep; subst.
        simpl. destruct (Nat.eq_dec v ws) as [->|Hv].
        + eexists. eapply task_of_set_task_same; exact E'.
        + exists a. now rewrite task_of_set_task_other.
      - destruct (task_of ws (tasks s)) as [a0|] eqn:E';
          [|unfold step in Hstep; rewrite E' in Hstep; discriminate].
        rewrite (step_raise _ _ _ _ _ E') in Hstep. inversion Hstep; subst.
        simpl. exists a. rewrite task_of_drop_task_other; [exact E|].
        intros ->. now apply (Hne e). }
    split; [|exact Ht]. destruct Ht as [a' Ha'].
    rewrite <- (inv_tasks _ HI1). eapply task_of_key; exact Ha'.
  - intros v e s1 Hstep.
    pose proof (Inv_step dashboard_html _ _ _ HI Hstep) as HI1.
    destruct (task_of v (tasks s)) as [a0|] eqn:E';
      [|unfold step in Hstep; rewrite E' in Hstep; discriminate].
    assert (Hn : task_of v (tasks s1) = None).
    { rewrite (step_raise _ _ _ _ _ E') in Hstep. inversion Hstep; subst.
      simpl. apply task_of_drop_task_same. }
    split; [exact Hn|]. rewrite <- (inv_tasks _ HI1). intros Hin.
    destruct (key_task_of _ _ Hin) as [a' Ha']. congruence.
Qed.

End LoopClaims.

(* ===================================================================== *)
(** * One tick: every sleeping viewer wakes and is sent a frame *)
(* ===================================================================== *)


Section TickClaims.

Context {F : Type} `{PyFloat F}.
Variable dashboard_html : string.

Abbreviation step1 := (step dashboard_html).
Abbreviation runs := (run dashboard_html).












End TickClaims.

(* ===================================================================== *)
(** * A concrete session *)
(* ===================================================================== *)

(** Two viewers connect one after the other and are sent their first
    frame, on a wall clock that advances by a millisecond between two
    readings. *)
Definition page_example : string := "<html></html>".

Definition wall_example : Clock Q := Exact.ticking 1700000000 (1 # 1000).

Definition two_viewers : list Event :=
  [WsAccept; WsAccept; WsSent 0; WsSent 1].

Definition peer_gone : PyExc :=
  {| exc_is_Exception := true; exc_str := "connection closed" |}.

(** The state an [option] holds, [d] when it holds none. *)
Definition state_of (o : option (@Server Q)) (d : @Server Q) : @Server Q :=
  match o with
  | Some s => s
  | None => d
  end.

(** Both viewers registered, served once, and asleep. *)
Definition both_asleep : @Server Q :=
  state_of (run page_example (boot wall_example) two_viewers)
           (boot wall_example).


(** The state after the handler of viewer 0 saw its peer go away. *)
Definition after_failure : @Server Q :=
  state_of (step page_example both_asleep (WsRaise 0 peer_gone))
           (boot wall_example).



Lemma both_asleep_run :
  run page_example (boot wall_example) two_viewers = Some both_asleep.
Proof.
  unfold both_asleep.
  assert (N : option_map next_ws
                (run page_example (boot wall_example) two_viewers) = Some 2)
    by (vm_compute; reflexivity).
  destruct (run page_example (boot wall_example) two_viewers) as [s|];
    [reflexivity|discriminate N].
Qed.




Lemma after_failure_step :
  step page_example both_asleep (WsRaise 0 peer_gone) = Some after_failure.
Proof.
  unfold after_failure.
  assert (N : option_map next_ws
                (step page_example both_asleep (WsRaise 0 peer_gone))
              = Some 2)
    by (vm_compute; reflexivity).
  destruct (step page_example both_asleep (WsRaise 0 peer_gone)) as [s|];
    [reflexivity|discriminate N].
Qed.

Lemma both_asleep_task :
  task_of 0 (tasks both_asleep) = Some (AwaitSleep 5).
Proof. vm_compute. reflexivity. Qed.


Lemma registry_tracks_live_handles_witness :
  run page_example (boot wall_example)
      ([WsAccept; WsAccept] ++ [WsSent 0; WsSent 1]) = Some both_asleep
  /\ exists s1,
       run page_example (boot wall_example) [WsAccept; WsAccept] = Some s1
       /\ registry s1 = [0; 1]
       /\ NoDup (registry s1)
       /\ registry both_asleep = [0; 1].
Proof.
  split; [exact both_asleep_run|].
  destruct (registry_tracks_live_handles
              page_example wall_example
              [WsAccept; WsAccept] [WsSent 0; WsSent 1] both_asleep
              both_asleep_run) as (s1 & R1 & G1 & N1 & G & _).
  exists s1. split; [exact R1|]. split; [exact G1|].
  split; [exact N1|exact G].
Defined.

Lemma failure_is_isolated_witness :
  run page_example (boot wall_example) two_viewers = Some both_asleep
  /\ step page_example both_asleep (WsRaise 0 peer_gone) = Some after_failure
  /\ ~ In 0 (registry after_failure)
  /\ delivered after_failure = delivered both_asleep.
Proof.
  split; [exact both_asleep_run|]. split; [exact after_failure_step|].
  destruct (failure_is_isolated
              page_example wall_example two_viewers both_asleep after_failure
              0 peer_gone both_asleep_run after_failure_step)
    as (A & _ & _ & D & _).
  split; [exact A|exact D].
Defined.

Lemma push_loop_lifecycle_witness :
  run page_example (boot wall_example) two_viewers = Some both_asleep
  /\ forall v n, task_of v (tasks both_asleep) = Some (AwaitSleep 5) ->
       exists s',
         run page_example both_asleep (iterations v n) = Some s'
         /\ List.length (frames_of v s')
            = n + List.length (frames_of v both_asleep)
         /\ task_of v (tasks s') = Some (AwaitSleep 5).
Proof.
  split; [exact both_asleep_run|].
  exact (proj1 (proj2 (proj2 (proj2 (proj2
           (push_loop_lifecycle page_example wall_example two_viewers
              both_asleep both_asleep_run)))))).
Defined.

Lemma alerts_always_empty_witness :
  run page_example (boot wall_example) two_viewers = Some both_asleep
  /\ alerts (self (world both_asleep)) = [].
Proof.
  split; [exact both_asleep_run|].
  exact (proj1 (alerts_always_empty
                  page_example wall_example two_viewers both_asleep
                  both_asleep_run)).
Defined.

(* ===================================================================== *)
(** * What the dashboard shows to the outside *)
(* ===================================================================== *)

(** What the [except Exception] clause prints for [e]: a line when [e]
    is an [Exception], nothing otherwise. *)
Definition error_line (e : PyExc) : list string :=
  if exc_is_Exception e then ["WebSocket error: " ++ exc_str e] else [].

(** The lines the dashboard prints, read off the events: one line for
    each handler that ends with an [Exception]. *)
Fixpoint error_lines (evs : list Event) : list string :=
  match evs with
  | [] => []
  | WsRaise _ e :: rest => (error_line e ++ error_lines rest)%list
  | _ :: rest => error_lines rest
  end.

(** How the handlers end, read off the events: a failed [accept] ends the
    handler of the next socket with its exception; an exception at an
    [await] ends the handler of its socket, silently when the
    [except Exception] clause takes it, with the exception otherwise.
    [next] is the identity the next socket object gets. *)
Fixpoint handler_exits (next : nat) (evs : list Event)
  : list (WebSocket * option PyExc) :=
  match evs with
  | [] => []
  | WsAccept :: rest => handler_exits (S next) rest
  | WsAcceptError e :: rest => (next, Some e) :: handler_exits (S next) rest
  | WsRaise ws e :: rest =>
      (ws, if exc_is_Exception e then None else Some e)
        :: handler_exits next rest
  | _ :: rest => handler_exits next rest
  end.

(** The number of socket objects the events create. *)
Fixpoint sockets_created (evs : list Event) : nat :=
  match evs with
  | [] => 0
  | WsAccept :: rest => S (sockets_created rest)
  | WsAcceptError _ :: rest => S (sockets_created rest)
  | _ :: rest => sockets_created rest
  end.

(** Text made of the printable ASCII characters only. *)
Definition printable_char (c : ascii) : bool :=
  (32 <=? nat_of_ascii c)%nat && (nat_of_ascii c <=? 126)%nat.

Fixpoint printable (s : string) : bool :=
  match s with
  | EmptyString => true
  | String c rest => printable_char c && printable rest
  end.

(** Induction on a value that reaches the items of lists and dicts. *)
Section PyValueInduction.

  Variable P : PyValue -> Prop.
  Hypothesis P_str : forall s, P (PyStr s).
  Hypothesis P_int : forall z, P (PyInt z).
  Hypothesis P_list : forall items, Forall P items -> P (PyList items).
  Hypothesis P_dict :
    forall entries, Forall (fun e => P (snd e)) entries -> P (PyDict entries).

Fixpoint PyValue_deep_ind (v : PyValue) : P v :=
    match v with
    | PyStr s => P_str s
    | PyInt z => P_int z
    | PyList items =>
        P_list items
          ((fix go (l : list PyValue) : Forall P l :=
              match l with
              | [] => Forall_nil P
              | x :: rest => Forall_cons x (PyValue_deep_ind x) (go rest)
              end) items)
    | PyDict entries =>
        P_dict entries
          ((fix go (l : list (string * PyValue))
              : Forall (fun e => P (snd e)) l :=
              match l with
              | [] => Forall_nil _
              | e :: rest =>
                  Forall_cons e (PyValue_deep_ind (snd e)) (go rest)
              end) entries)
    end.

End PyValueInduction.

Lemma printable_app (a b : string) :
  printable (a ++ b) = printable a && printable b.
Proof.
  induction a as [|c a IH]; simpl; [reflexivity|].
  now rewrite IH, andb_assoc.
Qed.

Lemma escape_char_printable (c : ascii) :
  printable (Json.escape_char c) = true.
Proof. destruct c as [[] [] [] [] [] [] [] []]; reflexivity. Qed.

Lemma escape_printable (s : string) : printable (Json.escape s) = true.
Proof.
  induction s as [|c s IH]; simpl; [reflexivity|].
  now rewrite printable_app, escape_char_printable, IH.
Qed.

Lemma quoted_printable (s : string) : printable (Json.quoted s) = true.
Proof.
  unfold Json.quoted.
  change (printable (String Json.dquote
                       (Json.escape s ++ String Json.dquote EmptyString)))
    with (printable_char Json.dquote
          && printable (Json.escape s ++ String Json.dquote EmptyString)).
  now rewrite printable_app, escape_printable.
Qed.

Lemma join_printable (parts : list string) :
  Forall (fun p => printable p = true) parts ->
  printable (Json.join parts) = true.
Proof.
  induction 1 as [|p parts Hp Hparts IH]; [reflexivity|].
  destruct parts as [|q parts]; [exact Hp|].
  change (Json.join (p :: q :: parts))
    with (p ++ ", " ++ Json.join (q :: parts)).
  now rewrite !printable_app, Hp, IH.
Qed.

Lemma string_of_uint_printable (u : Decimal.uint) :
  printable (NilEmpty.string_of_uint u) = true.
Proof. induction u; simpl; try reflexivity; exact IHu. Qed.

Lemma str_of_Z_printable (z : Z) : printable (str_of_Z z) = true.
Proof.
  unfold str_of_Z, NilEmpty.string_of_int.
  destruct (Z.to_int z); simpl; apply string_of_uint_printable.
Qed.

Lemma dumps_dict_entries (entries : list (string * PyValue)) :
  Json.dumps (PyDict entries)
  = "{" ++ Json.join
             (map (fun e => Json.quoted (fst e) ++ ": " ++ Json.dumps (snd e))
                  entries) ++ "}".
Proof.
  cbn [Json.dumps]. do 3 f_equal.
  induction entries as [|[k x] rest IH]; [reflexivity|].
  cbn [map fst snd]. now rewrite <- IH.
Qed.

(** [json.dumps] escapes whatever is not printable ASCII. *)
Lemma dumps_printable (v : PyValue) : printable (Json.dumps v) = true.
Proof.
  induction v as [s|z|items IH|entries IH] using PyValue_deep_ind.
  - apply quoted_printable.
  - apply str_of_Z_printable.
  - change (Json.dumps (PyList items))
      with ("[" ++ Json.join (map Json.dumps items) ++ "]").
    rewrite !printable_app.
    rewrite join_printable; [reflexivity|].
    induction IH; simpl; constructor; assumption.
  - rewrite dumps_dict_entries, !printable_app.
    rewrite join_printable; [reflexivity|].
    induction IH as [|[k x] rest Hx Hrest IHrest]; cbn [map fst snd];
      constructor; [|assumption].
    cbn [snd] in Hx. rewrite !printable_app, quoted_printable, Hx.
    reflexivity.
Qed.

(** The requests that touch neither the dashboard object nor the clock:
    the page and the alert list. *)
Definition quiet (ev : Event) : bool :=
  match ev with
  | Http GetRoot | Http GetAlerts => true
  | _ => false
  end.

Definition without_quiet (evs : list Event) : list Event :=
  filter (fun ev => negb (quiet ev)) evs.

Lemma some_inj {A : Type} (x y : A) : Some x = Some y -> x = y.
Proof. now intros [= ->]. Qed.

Section ServerHistory.

Context {F : Type} `{PyFloat F}.
Variable dashboard_html : string.

Abbreviation step1 := (step dashboard_html).
Abbreviation runs := (run dashboard_html).

(** What a successful step is, event by event. *)
Lemma step_inversion (s s' : @Server F) ev :
  step1 s ev = Some s' ->
  match ev with
  | Http r =>
      s' = {| world := snd (serve dashboard_html r (world s));
              tasks := tasks s; next_ws := next_ws s;
              delivered := delivered s; exits := exits s;
              responses := (responses s
                            ++ [fst (serve dashboard_html r (world s))])%list |}
  | WsAccept =>
      s' = {| world := snd (collect_metrics (joined s));
              tasks := (tasks s
                        ++ [(next_ws s,
                             AwaitSend
                               (Json.dumps (fst (collect_metrics (joined s)))))])%list;
              next_ws := S (next_ws s);
              delivered := delivered s; exits := exits s;
              responses := responses s |}
  | WsAcceptError e =>
      s' = {| world := world s; tasks := tasks s;
              next_ws := S (next_ws s);
              delivered := delivered s;
              exits := (exits s ++ [(next_ws s, Some e)])%list;
              responses := responses s |}
  | WsSent ws =>
      exists payload,
        task_of ws (tasks s) = Some (AwaitSend payload)
        /\ s' = {| world := world s;
                   tasks := set_task ws (AwaitSleep 5) (tasks s);
                   next_ws := next_ws s;
                   delivered := (delivered s ++ [(ws, payload)])%list;
                   exits := exits s; responses := responses s |}
  | WsWake ws =>
      exists d,
        task_of ws (tasks s) = Some (AwaitSleep d)
        /\ s' = {| world := snd (collect_metrics (world s));
                   tasks := set_task ws
                              (AwaitSend
                                 (Json.dumps (fst (collect_metrics (world s)))))
                              (tasks s);
                   next_ws := next_ws s;
                   delivered := delivered s; exits := exits s;
                   responses := responses s |}
  | WsRaise ws e =>
      exists a,
        task_of ws (tasks s) = Some a
        /\ s' = {| world := snd (ws_leave ws e (world s));
                   tasks := drop_task ws (tasks s);
                   next_ws := next_ws s;
                   delivered := delivered s;
                   exits := (exits s
                             ++ [(ws, fst (ws_leave ws e (world s)))])%list;
                   responses := responses s |}
  end.
Proof.
  intros Hstep. destruct ev as [r| |e|ws|ws|ws e].
  - rewrite step_http in Hstep. symmetry. now apply some_inj.
  - rewrite step_accept in Hstep. symmetry. now apply some_inj.
  - unfold step in Hstep. symmetry. now apply some_inj.
  - destruct (task_of ws (tasks s)) as [[payload|d]|] eqn:E;
      [ | unfold step in Hstep; rewrite E in Hstep; discriminate Hstep
        | unfold step in Hstep; rewrite E in Hstep; discriminate Hstep].
    rewrite (step_sent _ _ _ _ E) in Hstep.
    exists payload. split; [reflexivity|]. symmetry. now apply some_inj.
  - destruct (task_of ws (tasks s)) as [[payload|d]|] eqn:E;
      [unfold step in Hstep; rewrite E in Hstep; discriminate Hstep
      | | unfold step in Hstep; rewrite E in Hstep; discriminate Hstep].
    rewrite (step_wake _ _ _ _ E) in Hstep.
    exists d. split; [reflexivity|]. symmetry. now apply some_inj.
  - destruct (task_of ws (tasks s)) as [a|] eqn:E;
      [|unfold step in Hstep; rewrite E in Hstep; discriminate Hstep].
    rewrite (step_raise _ _ _ _ _ E) in Hstep.
    exists a. split; [reflexivity|]. symmetry. now apply some_inj.
Qed.

Lemma serve_stdout (r : Route) (w : World F) :
  stdout (snd (serve dashboard_html r w)) = stdout w.
Proof. destruct r; reflexivity. Qed.

Lemma serve_self (r : Route) (w : World F) :
  r <> GetMetrics -> self (snd (serve dashboard_html r w)) = self w.
Proof. destruct r; try reflexivity. now intros []. Qed.

Lemma ws_leave_stdout ws e (w : World F) :
  stdout (snd (ws_leave ws e w)) = (stdout w ++ error_line e)%list.
Proof.
  unfold ws_leave, bind, ws_remove, print, ret, error_line.
  destruct (exc_is_Exception e); simpl;
    destruct (list_remove ws (connected_websockets (self w))); simpl;
    now rewrite ?app_nil_r.
Qed.

Lemma step_stdout (s s' : @Server F) ev :
  step1 s ev = Some s' ->
  stdout (world s') = (stdout (world s) ++ error_lines [ev])%list.
Proof.
  intros Hstep. apply step_inversion in Hstep.
  destruct ev as [r| |e|ws|ws|ws e]; cbn [error_lines].
  - subst s'. cbn [world]. now rewrite serve_stdout, app_nil_r.
  - subst s'. cbn [world]. rewrite collect_metrics_world. cbn [stdout].
    unfold joined, set_connected. cbn [stdout]. now rewrite app_nil_r.
  - subst s'. cbn [world]. now rewrite app_nil_r.
  - destruct Hstep as (p & _ & ->). cbn [world]. now rewrite app_nil_r.
  - destruct Hstep as (d & _ & ->). cbn [world].
    rewrite collect_metrics_world. cbn [stdout]. now rewrite app_nil_r.
  - destruct Hstep as (a & _ & ->). cbn [world].
    now rewrite ws_leave_stdout, app_nil_r.
Qed.

Lemma error_lines_cons ev evs :
  error_lines (ev :: evs) = (error_lines [ev] ++ error_lines evs)%list.
Proof.
  destruct ev; try reflexivity. cbn [error_lines].
  now rewrite app_nil_r.
Qed.

Lemma run_stdout (s s' : @Server F) evs :
  runs s evs = Some s' ->
  stdout (world s') = (stdout (world s) ++ error_lines evs)%list.
Proof.
  revert s. induction evs as [|ev evs IH]; intros s Hrun.
  - apply some_inj in Hrun. subst. now rewrite app_nil_r.
  - cbn [run] in Hrun. destruct (step1 s ev) as [s1|] eqn:E;
      [|discriminate Hrun].
    rewrite (IH _ Hrun), (step_stdout _ _ _ E), (error_lines_cons ev evs).
    now rewrite app_assoc.
Qed.

(** X1.  The only thing the dashboard ever prints is one line
    [WebSocket error: ...] for each handler ended by an [Exception], in
    the order in which they ended; a handler ended by another exception
    (a cancellation) prints nothing, and neither does anything else. *)
Theorem stdout_is_the_handler_errors
    (c : Clock F) (evs : list Event) (s : @Server F) :
  runs (boot c) evs = Some s ->
  stdout (world s) = error_lines evs.
Proof. intros Hrun. now rewrite (run_stdout _ _ _ Hrun). Qed.

Lemma step_exits (s s' : @Server F) ev :
  Inv s -> step1 s ev = Some s' ->
  exits s' = (exits s ++ handler_exits (next_ws s) [ev])%list
  /\ next_ws s' = sockets_created [ev] + next_ws s.
Proof.
  intros HI Hstep. apply step_inversion in Hstep.
  destruct ev as [r| |e|ws|ws|ws e]; cbn [handler_exits sockets_created].
  - subst s'. cbn [exits next_ws]. now rewrite app_nil_r.
  - subst s'. cbn [exits next_ws]. now rewrite app_nil_r.
  - subst s'. cbn [exits next_ws]. now split.
  - destruct Hstep as (p & _ & ->). cbn [exits next_ws].
    now rewrite app_nil_r.
  - destruct Hstep as (d & _ & ->). cbn [exits next_ws].
    now rewrite app_nil_r.
  - destruct Hstep as (a & E & ->). cbn [exits next_ws].
    assert (Hin : In ws (registry s))
      by (rewrite <- (inv_tasks _ HI); eapply task_of_key; eauto).
    pose proof (list_remove_present ws _ (inv_nodup _ HI) Hin) as Hrm.
    unfold registry in Hrm.
    rewrite (ws_leave_registered _ e _ _ Hrm). now split.
Qed.

Lemma handler_exits_cons next ev evs :
  handler_exits next (ev :: evs)
  = (handler_exits next [ev]
     ++ handler_exits (sockets_created [ev] + next) evs)%list.
Proof. destruct ev; reflexivity. Qed.

Lemma run_exits (s s' : @Server F) evs :
  Inv s -> runs s evs = Some s' ->
  exits s' = (exits s ++ handler_exits (next_ws s) evs)%list
  /\ next_ws s' = sockets_created evs + next_ws s.
Proof.
  revert s. induction evs as [|ev evs IH]; intros s HI Hrun.
  - apply some_inj in Hrun. subst. now rewrite app_nil_r.
  - cbn [run] in Hrun. destruct (step1 s ev) as [s1|] eqn:E;
      [|discriminate Hrun].
    destruct (step_exits _ _ _ HI E) as [Ex Nx].
    destruct (IH _ (Inv_step _ _ _ _ HI E) Hrun) as [Ex' Nx'].
    rewrite Ex', Ex, Nx', Nx, (handler_exits_cons (next_ws s) ev evs),
      app_assoc. split.
    + reflexivity.
    + destruct ev; cbn [sockets_created]; lia.
Qed.

(** X2.  How every handler ended can be read off the events: a handler
    whose [accept] failed ends with that exception, a handler interrupted
    by an [Exception] ends silently, one interrupted by another exception
    ends with it.  The [ValueError] that the [remove] of the [finally]
    clause can raise shows up in no run; and the server has handed out as
    many socket identities as connections were attempted. *)
Theorem exits_follow_the_events
    (c : Clock F) (evs : list Event) (s : @Server F) :
  runs (boot c) evs = Some s ->
  exits s = handler_exits 0 evs
  /\ next_ws s = sockets_created evs.
Proof.
  intros Hrun.
  destruct (run_exits _ _ _ (Inv_boot c) Hrun) as [Ex Nx].
  cbn [boot exits next_ws] in Ex, Nx.
  now rewrite Ex, Nx, Nat.add_0_r.
Qed.

(** Every frame delivered so far is the text of a snapshot. *)
Definition frames_are_snapshots (s : @Server F) : Prop :=
  forall v p, In (v, p) (delivered s) ->
    exists w0 : World F, p = Json.dumps (fst (collect_metrics w0)).

Lemma step_frames (s s' : @Server F) ev :
  Inv s -> frames_are_snapshots s -> step1 s ev = Some s' ->
  frames_are_snapshots s'.
Proof.
  intros HI Hf Hstep. apply step_inversion in Hstep.
  destruct ev as [r| |e|ws|ws|ws e].
  - subst s'. exact Hf.
  - subst s'. exact Hf.
  - subst s'. exact Hf.
  - destruct Hstep as (p & E & ->). intros v q Hin. cbn [delivered] in Hin.
    apply in_app_or in Hin as [Hin|[Hin|[]]]; [now apply (Hf v)|].
    apply task_of_In in E.
    destruct (inv_send _ HI _ _ E) as [w0 Hw0].
    exists w0. congruence.
  - destruct Hstep as (d & _ & ->). exact Hf.
  - destruct Hstep as (a & _ & ->). exact Hf.
Qed.

Lemma run_frames (s s' : @Server F) evs :
  Inv s -> frames_are_snapshots s -> runs s evs = Some s' ->
  frames_are_snapshots s'.
Proof.
  revert s. induction evs as [|ev evs IH]; intros s HI Hf Hrun.
  - apply some_inj in Hrun. now subst.
  - cbn [run] in Hrun. destruct (step1 s ev) as [s1|] eqn:E;
      [|discriminate Hrun].
    apply (IH s1); [eapply Inv_step; eassumption| |assumption].
    eapply step_frames; eassumption.
Qed.

Lemma reachable_frames (c : Clock F) evs (s : @Server F) :
  runs (boot c) evs = Some s -> frames_are_snapshots s.
Proof.
  apply run_frames; [apply Inv_boot|]. intros v p [].
Qed.

(** X3.  Every frame a viewer has been sent is the JSON text of a
    snapshot that [collect_metrics] returned, with all five categories;
    nothing else is ever sent on a socket. *)
Theorem every_frame_is_a_snapshot
    (c : Clock F) (evs : list Event) (s : @Server F) v p :
  runs (boot c) evs = Some s ->
  In (v, p) (delivered s) ->
  exists w0 : World F,
    p = Json.dumps (fst (collect_metrics w0))
    /\ category_complete (fst (collect_metrics w0)) = true.
Proof.
  intros Hrun Hin.
  destruct (reachable_frames _ _ _ Hrun _ _ Hin) as [w0 Hw0].
  exists w0. split; [exact Hw0|apply collect_metrics_complete].
Qed.

(** X4.  A frame consists of printable ASCII characters only, whatever
    the clock and the float formatting produce: [json.dumps] escapes the
    rest. *)
Theorem frames_are_printable_ascii
    (c : Clock F) (evs : list Event) (s : @Server F) v p :
  runs (boot c) evs = Some s ->
  In (v, p) (delivered s) ->
  printable p = true.
Proof.
  intros Hrun Hin.
  destruct (reachable_frames _ _ _ Hrun _ _ Hin) as [w0 ->].
  apply dumps_printable.
Qed.

(** A socket that was handed out and is not registered. *)
Definition gone (v : WebSocket) (s : @Server F) : Prop :=
  v < next_ws s /\ ~ In v (registry s).

Lemma registry_accept (s : @Server F) :
  connected_websockets (self (snd (collect_metrics (joined s))))
  = (registry s ++ [next_ws s])%list.
Proof. rewrite collect_metrics_world. reflexivity. Qed.

Lemma step_gone (s s' : @Server F) ev v :
  Inv s -> gone v s -> step1 s ev = Some s' ->
  gone v s' /\ frames_of v s' = frames_of v s.
Proof.
  intros HI [Hlt Hout] Hstep.
  assert (Hnone : task_of v (tasks s) = None).
  { apply task_of_absent. now rewrite (inv_tasks _ HI). }
  apply step_inversion in Hstep.
  destruct ev as [r| |e|ws|ws|ws e].
  - subst s'. unfold gone, registry, frames_of. cbn [world next_ws delivered].
    now rewrite (proj2 (serve_frame dashboard_html r (world s))).
  - subst s'. unfold gone, frames_of. cbn [next_ws delivered].
    unfold registry at 1. cbn [world]. rewrite registry_accept.
    repeat split; [lia|].
    intros Hin. apply in_app_or in Hin as [Hin|[Hin|[]]]; [tauto|lia].
  - subst s'. unfold gone, registry, frames_of. cbn [world next_ws delivered].
    repeat split; [lia|exact Hout].
  - destruct Hstep as (p & E & ->).
    unfold gone, registry, frames_of. cbn [world next_ws delivered].
    repeat split; [exact Hlt|exact Hout|].
    rewrite filter_app, map_app. cbn [filter fst].
    destruct (Nat.eqb_spec ws v) as [->|Hne]; [congruence|].
    now rewrite app_nil_r.
  - destruct Hstep as (d & E & ->).
    unfold gone, registry, frames_of. cbn [world next_ws delivered].
    rewrite collect_metrics_world. cbn [self connected_websockets].
    repeat split; [exact Hlt|exact Hout].
  - destruct Hstep as (a & E & ->).
    assert (Hin : In ws (registry s))
      by (rewrite <- (inv_tasks _ HI); eapply task_of_key; eauto).
    pose proof (list_remove_present ws _ (inv_nodup _ HI) Hin) as Hrm.
    unfold gone, registry, frames_of in *. cbn [world next_ws delivered].
    rewrite (ws_leave_registered _ e _ _ Hrm). cbn [snd].
    unfold set_connected. cbn [self connected_websockets].
    repeat split; [exact Hlt|].
    intros Hf. apply filter_In in Hf as [Hf _]. tauto.
Qed.

Lemma run_gone (s s' : @Server F) evs v :
  Inv s -> gone v s -> runs s evs = Some s' ->
  gone v s' /\ frames_of v s' = frames_of v s.
Proof.
  revert s. induction evs as [|ev evs IH]; intros s HI Hg Hrun.
  - apply some_inj in Hrun. now subst.
  - cbn [run] in Hrun. destruct (step1 s ev) as [s1|] eqn:E;
      [|discriminate Hrun].
    destruct (step_gone _ _ _ _ HI Hg E) as [Hg1 Hf1].
    destruct (IH _ (Inv_step _ _ _ _ HI E) Hg1 Hrun) as [Hg' Hf'].
    split; [exact Hg'|congruence].
Qed.

(** X5.  A socket whose handler has ended (or whose [accept] failed) is
    out for good: whatever happens later, it is never registered again,
    no handler runs for it, no event that names it can take place, and
    the viewer behind it is sent no further frame. *)
Theorem ended_viewer_gets_nothing_more
    (c : Clock F) (evs evs2 : list Event) (s s2 : @Server F) v :
  runs (boot c) evs = Some s ->
  v < next_ws s -> ~ In v (registry s) ->
  runs s evs2 = Some s2 ->
  ~ In v (registry s2)
  /\ task_of v (tasks s2) = None
  /\ frames_of v s2 = frames_of v s
  /\ (forall e, step1 s2 (WsSent v) = None /\ step1 s2 (WsWake v) = None
                /\ step1 s2 (WsRaise v e) = None).
Proof.
  intros Hrun Hlt Hout Hrun2.
  pose proof (Inv_reachable _ _ _ _ Hrun) as HI.
  pose proof (Inv_run _ _ _ _ HI Hrun2) as HI2.
  destruct (run_gone _ _ _ v HI (conj Hlt Hout) Hrun2) as [[_ Hout2] Hf].
  assert (Hnone : task_of v (tasks s2) = None).
  { apply task_of_absent. now rewrite (inv_tasks _ HI2). }
  repeat split; try assumption; unfold step; now rewrite Hnone.
Qed.

(** X7.  [GET] requests are always served, each with one response, and
    they leave the streaming alone: the handlers, the registry, the
    frames delivered, the handler exits, the output and the alert list
    are the same after any burst of requests; the dashboard object itself
    is unchanged unless [/metrics] was among them. *)
Theorem http_requests_leave_streaming_alone
    (s : @Server F) (rs : list Route) :
  exists s',
    runs s (map Http rs) = Some s'
    /\ tasks s' = tasks s
    /\ registry s' = registry s
    /\ next_ws s' = next_ws s
    /\ delivered s' = delivered s
    /\ exits s' = exits s
    /\ stdout (world s') = stdout (world s)
    /\ alerts (self (world s')) = alerts (self (world s))
    /\ List.length (responses s')
       = List.length (responses s) + List.length rs
    /\ (~ In GetMetrics rs -> self (world s') = self (world s)).
Proof.
  revert s. induction rs as [|r rs IH]; intros s.
  - exists s. cbn [map run List.length]. rewrite Nat.add_0_r.
    now repeat split.
  - cbn [map run]. rewrite step_http.
    destruct (IH {| world := snd (serve dashboard_html r (world s));
                    tasks := tasks s; next_ws := next_ws s;
                    delivered := delivered s; exits := exits s;
                    responses := (responses s
                                  ++ [fst (serve dashboard_html r (world s))])%list |})
      as (s' & Hrun & Ht & Hr & Hn & Hd & Hx & Ho & Ha & Hl & Hs).
    exists s'. unfold registry in *.
    cbn [world tasks next_ws delivered exits responses] in *.
    destruct (serve_frame dashboard_html r (world s)) as [Ea Ec].
    rewrite serve_stdout in Ho. rewrite Ea in Ha. rewrite Ec in Hr.
    rewrite length_app in Hl. cbn [List.length] in Hl |- *.
    repeat split; try assumption; [lia|].
    intros Hno. rewrite Hs; [|intros Hin; apply Hno; now right].
    apply serve_self. intros ->. apply Hno. now left.
Qed.

Lemma serve_fields (r : Route) (w : World F) :
  performance_data (self (snd (serve dashboard_html r w)))
  = performance_data (self w)
  /\ (metrics (self (snd (serve dashboard_html r w))) = metrics (self w)
      \/ metrics (self (snd (serve dashboard_html r w)))
         = fst (collect_metrics w)).
Proof.
  destruct r; split; try reflexivity; try (left; reflexivity).
  right. cbn [serve]. unfold get_metrics, bind, ret.
  pose proof (collect_metrics_world w) as E.
  destruct (collect_metrics w) as [m w']. cbn [fst snd] in *.
  now rewrite E.
Qed.

Lemma ws_leave_fields ws e (w : World F) :
  performance_data (self (snd (ws_leave ws e w))) = performance_data (self w)
  /\ metrics (self (snd (ws_leave ws e w))) = metrics (self w).
Proof.
  unfold ws_leave, bind, ws_remove, print, ret.
  destruct (exc_is_Exception e); simpl;
    destruct (list_remove ws (connected_websockets (self w)));
    split; reflexivity.
Qed.

(** [performance_data] is as [__init__] left it, and [metrics] is that
    too or holds a snapshot. *)
Definition fields_kept (s : @Server F) : Prop :=
  performance_data (self (world s)) = PyDict []
  /\ (metrics (self (world s)) = PyDict []
      \/ exists w0 : World F,
           metrics (self (world s)) = fst (collect_metrics w0)).

Lemma step_fields (s s' : @Server F) ev :
  fields_kept s -> step1 s ev = Some s' -> fields_kept s'.
Proof.
  intros [Hp Hm] Hstep. apply step_inversion in Hstep.
  destruct ev as [r| |e|ws|ws|ws e]; unfold fields_kept.
  - subst s'. cbn [world].
    destruct (serve_fields r (world s)) as [Ep [Em|Em]]; rewrite Ep, Em;
      split; try assumption.
    right. now exists (world s).
  - subst s'. cbn [world]. rewrite collect_metrics_world.
    cbn [self performance_data metrics].
    split; [exact Hp|]. right. now exists (joined s).
  - subst s'. cbn [world]. now split.
  - destruct Hstep as (p & _ & ->). cbn [world]. now split.
  - destruct Hstep as (d & _ & ->). cbn [world].
    rewrite collect_metrics_world. cbn [self performance_data metrics].
    split; [exact Hp|]. right. now exists (world s).
  - destruct Hstep as (a & _ & ->). cbn [world].
    destruct (ws_leave_fields ws e (world s)) as [Ep Em].
    rewrite Ep, Em. now split.
Qed.

(** X8.  The handlers and the requests write two fields of the dashboard
    object only: the registry, and [metrics], which holds [{}] or a
    snapshot with all five categories.  [performance_data] is never
    written: it is the empty dict in every state the server reaches. *)
Theorem dashboard_fields_written
    (c : Clock F) (evs : list Event) (s : @Server F) :
  runs (boot c) evs = Some s ->
  performance_data (self (world s)) = PyDict []
  /\ (metrics (self (world s)) = PyDict []
      \/ exists w0 : World F,
           metrics (self (world s)) = fst (collect_metrics w0)
           /\ category_complete (metrics (self (world s))) = true).
Proof.
  intros Hrun.
  assert (G : forall evs (s0 : @Server F),
             fields_kept s0 -> runs s0 evs = Some s -> fields_kept s).
  { clear. intros evs. induction evs as [|ev evs IH]; intros s0 Hk Hrun.
    - apply some_inj in Hrun. now subst.
    - cbn [run] in Hrun. destruct (step1 s0 ev) as [s1|] eqn:E;
        [|discriminate Hrun].
      apply (IH s1); [|assumption]. eapply step_fields; eassumption. }
  destruct (G evs (boot c)) as [Hp Hm];
    [split; [reflexivity|left; reflexivity]|exact Hrun|].
  split; [exact Hp|]. destruct Hm as [Hm|[w0 Hm]]; [now left|].
  right. exists w0. split; [exact Hm|].
  rewrite Hm. apply collect_metrics_complete.
Qed.

(** Two states that differ at most in the responses given so far. *)
Definition same_stream (s t : @Server F) : Prop :=
  world s = world t /\ tasks s = tasks t /\ next_ws s = next_ws t
  /\ delivered s = delivered t /\ exits s = exits t.

Lemma same_stream_joined (s t : @Server F) :
  same_stream s t -> joined s = joined t.
Proof.
  intros (Hw & _ & Hn & _). unfold joined, registry. now rewrite Hw, Hn.
Qed.

Lemma step_same_stream (s t s' : @Server F) ev :
  same_stream s t -> step1 s ev = Some s' ->
  exists t', step1 t ev = Some t' /\ same_stream s' t'.
Proof.
  intros Hst Hstep. pose proof Hst as (Hw & Ht & Hn & Hd & Hx).
  apply step_inversion in Hstep.
  destruct ev as [r| |e|ws|ws|ws e].
  - subst s'. rewrite step_http. eexists. split; [reflexivity|].
    unfold same_stream. cbn [world tasks next_ws delivered exits].
    now rewrite Hw, Ht, Hn, Hd, Hx.
  - subst s'. rewrite step_accept. eexists. split; [reflexivity|].
    unfold same_stream. cbn [world tasks next_ws delivered exits].
    now rewrite (same_stream_joined _ _ Hst), Ht, Hn, Hd, Hx.
  - subst s'. unfold step. eexists. split; [reflexivity|].
    unfold same_stream. cbn [world tasks next_ws delivered exits].
    now rewrite Hw, Ht, Hn, Hd, Hx.
  - destruct Hstep as (p & E & ->). rewrite Ht in E.
    rewrite (step_sent _ _ _ _ E). eexists. split; [reflexivity|].
    unfold same_stream. cbn [world tasks next_ws delivered exits].
    now rewrite Hw, Ht, Hn, Hd, Hx.
  - destruct Hstep as (d & E & ->). rewrite Ht in E.
    rewrite (step_wake _ _ _ _ E). eexists. split; [reflexivity|].
    unfold same_stream. cbn [world tasks next_ws delivered exits].
    now rewrite Hw, Ht, Hn, Hd, Hx.
  - destruct Hstep as (a & E & ->). rewrite Ht in E.
    rewrite (step_raise _ _ _ _ _ E). eexists. split; [reflexivity|].
    unfold same_stream. cbn [world tasks next_ws delivered exits].
    now rewrite Hw, Ht, Hn, Hd, Hx.
Qed.

Lemma step_quiet (s s' : @Server F) ev :
  quiet ev = true -> step1 s ev = Some s' -> same_stream s' s.
Proof.
  intros Hq Hstep. apply step_inversion in Hstep.
  destruct ev as [[| | |]| | | | |]; try discriminate Hq; subst s';
    unfold same_stream; cbn [world tasks next_ws delivered exits];
    now repeat split.
Qed.

Lemma same_stream_trans (s t u : @Server F) :
  same_stream s t -> same_stream t u -> same_stream s u.
Proof.
  intros (A1 & A2 & A3 & A4 & A5) (B1 & B2 & B3 & B4 & B5).
  unfold same_stream. now rewrite A1, A2, A3, A4, A5.
Qed.

Lemma run_without_quiet (evs : list Event) (s t s' : @Server F) :
  same_stream s t -> runs s evs = Some s' ->
  exists t', runs t (without_quiet evs) = Some t' /\ same_stream s' t'.
Proof.
  revert s t. induction evs as [|ev evs IH]; intros s t Hst Hrun.
  - apply some_inj in Hrun. subst. exists t. now split.
  - cbn [run] in Hrun. destruct (step1 s ev) as [s1|] eqn:E;
      [|discriminate Hrun].
    unfold without_quiet. cbn [filter]. fold (without_quiet evs).
    destruct (quiet ev) eqn:Hq; cbn [negb].
    + apply (IH s1 t); [|exact Hrun].
      eapply same_stream_trans; [|exact Hst].
      eapply step_quiet; eassumption.
    + destruct (step_same_stream _ _ _ _ Hst E) as (t1 & Et & Hst1).
      cbn [run]. rewrite Et. now apply (IH s1 t1).
Qed.

(** X9.  Serving the page and the alert list does not disturb the
    stream.  Take any run and leave out its [GET /] and [GET /alerts]
    requests: the remaining events can still take place, and they lead to
    the same dashboard object, clock and output, the same handlers, the
    same frames delivered to every viewer and the same handler exits. *)
Theorem page_and_alert_requests_do_not_disturb
    (s s' : @Server F) (evs : list Event) :
  runs s evs = Some s' ->
  exists t',
    runs s (without_quiet evs) = Some t'
    /\ world t' = world s' /\ tasks t' = tasks s'
    /\ delivered t' = delivered s' /\ exits t' = exits s'.
Proof.
  intros Hrun.
  destruct (run_without_quiet evs s s s') as (t' & Ht & A1 & A2 & _ & A4 & A5);
    [now repeat split|exact Hrun|].
  exists t'. now repeat split.
Qed.

End ServerHistory.

Lemma list_remove_first (x : WebSocket) (l1 l2 : list WebSocket) :
  ~ In x l1 -> list_remove x (l1 ++ x :: l2) = Ok (l1 ++ l2)%list.
Proof.
  induction l1 as [|y l1 IH]; intros Hout; simpl.
  - now rewrite Nat.eqb_refl.
  - destruct (Nat.eqb_spec y x) as [->|Hne]; [elim Hout; now left|].
    rewrite IH; [reflexivity|]. intros Hin. apply Hout. now right.
Qed.

Section Removal.

Context {F : Type} `{PyFloat F}.

(** X10.  The [remove] of the [finally] clause takes out one entry of the
    registry, the first one that is the socket: the sockets before and
    after it keep their places, and should the socket be registered a
    second time, that entry stays. *)
Theorem remove_drops_first_occurrence_only
    (ws : WebSocket) (before after : list WebSocket) (w : World F) :
  connected_websockets (self w) = (before ++ ws :: after)%list ->
  ~ In ws before ->
  ws_remove ws w = (Ok tt, set_connected (before ++ after)%list w)
  /\ count_occ Nat.eq_dec
       (connected_websockets (self (snd (ws_remove ws w)))) ws
     = count_occ Nat.eq_dec after ws.
Proof.
  intros Hreg Hout. unfold ws_remove.
  rewrite Hreg, (list_remove_first _ _ _ Hout). cbn [snd].
  split; [reflexivity|].
  unfold set_connected. cbn [self connected_websockets].
  rewrite count_occ_app.
  pose proof (proj1 (count_occ_not_In Nat.eq_dec before ws) Hout) as E.
  unfold WebSocket in *. now rewrite E.
Qed.

End Removal.

(* ===================================================================== *)
(** * The concrete session, continued *)
(* ===================================================================== *)

(** The session in which the peer of viewer 0 goes away after the first
    frames, and a further round of the remaining viewer. *)
Definition failure_session : list Event :=
  (two_viewers ++ [WsRaise 0 peer_gone])%list.

Definition survivor_round : list Event := [WsWake 1; WsSent 1].

Definition after_round : @Server Q :=
  state_of (run page_example after_failure survivor_round)
           (boot wall_example).

(** The first frame of the session. *)
Definition first_frame : string :=
  match delivered both_asleep with
  | (_, p) :: _ => p
  | [] => ""
  end.

(** A registry that holds socket 5 twice. *)
Definition doubled_world : World Q :=
  {| self := {| metrics := PyDict []; alerts := [];
                performance_data := PyDict [];
                connected_websockets := [3; 5; 7; 5] |};
     clock := Exact.frozen 0;
     stdout := [] |}.

Lemma failure_session_run :
  run page_example (boot wall_example) failure_session = Some after_failure.
Proof.
  unfold failure_session. rewrite run_snoc, both_asleep_run.
  exact after_failure_step.
Qed.

Lemma after_round_run :
  run page_example after_failure survivor_round = Some after_round.
Proof.
  unfold after_round.
  assert (N : option_map next_ws
                (run page_example after_failure survivor_round) = Some 2)
    by (vm_compute; reflexivity).
  destruct (run page_example after_failure survivor_round) as [s|];
    [reflexivity|discriminate N].
Qed.

Lemma first_frame_delivered : In (0, first_frame) (delivered both_asleep).
Proof. vm_compute. left. reflexivity. Qed.

Lemma after_failure_issued : 0 < next_ws after_failure.
Proof. vm_compute. repeat constructor. Qed.

Lemma after_failure_registry : ~ In 0 (registry after_failure).
Proof. vm_compute. intros [E|[]]. discriminate E. Qed.

Lemma stdout_is_the_handler_errors_witness :
  run page_example (boot wall_example) failure_session = Some after_failure
  /\ stdout (world after_failure) = ["WebSocket error: connection closed"].
Proof.
  split; [exact failure_session_run|].
  exact (stdout_is_the_handler_errors page_example wall_example
           failure_session after_failure failure_session_run).
Defined.

Lemma exits_follow_the_events_witness :
  run page_example (boot wall_example) failure_session = Some after_failure
  /\ exits after_failure = [(0, None)]
  /\ next_ws after_failure = 2.
Proof.
  split; [exact failure_session_run|].
  exact (exits_follow_the_events page_example wall_example
           failure_session after_failure failure_session_run).
Defined.

Lemma every_frame_is_a_snapshot_witness :
  run page_example (boot wall_example) two_viewers = Some both_asleep
  /\ In (0, first_frame) (delivered both_asleep)
  /\ exists w0 : World Q,
       first_frame = Json.dumps (fst (collect_metrics w0))
       /\ category_complete (fst (collect_metrics w0)) = true.
Proof.
  split; [exact both_asleep_run|]. split; [exact first_frame_delivered|].
  exact (every_frame_is_a_snapshot page_example wall_example two_viewers
           both_asleep 0 first_frame both_asleep_run first_frame_delivered).
Defined.

Lemma frames_are_printable_ascii_witness :
  run page_example (boot wall_example) two_viewers = Some both_asleep
  /\ In (0, first_frame) (delivered both_asleep)
  /\ printable first_frame = true.
Proof.
  split; [exact both_asleep_run|]. split; [exact first_frame_delivered|].
  exact (frames_are_printable_ascii page_example wall_example two_viewers
           both_asleep 0 first_frame both_asleep_run first_frame_delivered).
Defined.

Lemma ended_viewer_gets_nothing_more_witness :
  run page_example (boot wall_example) failure_session = Some after_failure
  /\ 0 < next_ws after_failure
  /\ ~ In 0 (registry after_failure)
  /\ run page_example after_failure survivor_round = Some after_round
  /\ ~ In 0 (registry after_round)
  /\ frames_of 0 after_round = frames_of 0 after_failure.
Proof.
  split; [exact failure_session_run|].
  split; [exact after_failure_issued|].
  split; [exact after_failure_registry|].
  split; [exact after_round_run|].
  destruct (ended_viewer_gets_nothing_more page_example wall_example
              failure_session survivor_round after_failure after_round 0
              failure_session_run after_failure_issued
              after_failure_registry after_round_run)
    as (Hout & _ & Hf & _).
  split; [exact Hout|exact Hf].
Defined.

Lemma dashboard_fields_written_witness :
  run page_example (boot wall_example) two_viewers = Some both_asleep
  /\ performance_data (self (world both_asleep)) = PyDict [].
Proof.
  split; [exact both_asleep_run|].
  exact (proj1 (dashboard_fields_written page_example wall_example
                  two_viewers both_asleep both_asleep_run)).
Defined.

Lemma remove_drops_first_occurrence_only_witness :
  connected_websockets (self doubled_world) = ([3] ++ 5 :: [7; 5])%list
  /\ ~ In 5 [3]
  /\ ws_remove 5 doubled_world
     = (Ok tt, set_connected [3; 7; 5] doubled_world).
Proof.
  assert (Hout : ~ In 5 [3]) by (intros [E|[]]; discriminate E).
  split; [reflexivity|]. split; [exact Hout|].
  exact (proj1 (remove_drops_first_occurrence_only
                  5 [3] [7; 5] doubled_world eq_refl Hout)).
Defined.


(** The session with the page and the alerts requested in between. *)
Definition browsing_session : list Event :=
  [Http GetRoot; WsAccept; Http GetAlerts; WsAccept; WsSent 0;
   Http GetRoot; WsSent 1].

Definition after_browsing : @Server Q :=
  state_of (run page_example (boot wall_example) browsing_session)
           (boot wall_example).

Lemma after_browsing_run :
  run page_example (boot wall_example) browsing_session = Some after_browsing.
Proof.
  unfold after_browsing.
  assert (N : option_map next_ws
                (run page_example (boot wall_example) browsing_session)
              = Some 2)
    by (vm_compute; reflexivity).
  destruct (run page_example (boot wall_example) browsing_session) as [s|];
    [reflexivity|discriminate N].
Qed.

Lemma page_and_alert_requests_do_not_disturb_witness :
  run page_example (boot wall_example) browsing_session = Some after_browsing
  /\ exists t',
       run page_example (boot wall_example) two_viewers = Some t'
       /\ world t' = world after_browsing
       /\ tasks t' = tasks after_browsing
       /\ delivered t' = delivered after_browsing
       /\ exits t' = exits after_browsing.
Proof.
  split; [exact after_browsing_run|].
  exact (page_and_alert_requests_do_not_disturb page_example
           (boot wall_example) after_browsing browsing_session
           after_browsing_run).
Defined.

(* ===================================================================== *)
(** * The copilot: text, scans and routes *)
(* ===================================================================== *)

Module CopilotFacts.

Import Copilot.

  (** ** [lower] and [in] *)

Lemma lower_char_idem (c : ascii) : lower_char (lower_char c) = lower_char c.
Proof. destruct c as [[] [] [] [] [] [] [] []]; reflexivity. Qed.

Lemma lower_idem (s : string) : lower (lower s) = lower s.
Proof.
  induction s as [|c s IH]; simpl; [reflexivity|].
  now rewrite lower_char_idem, IH.
Qed.

Lemma lower_app (a b : string) : lower (a ++ b) = lower a ++ lower b.
Proof. induction a as [|c a IH]; simpl; [reflexivity|now rewrite IH]. Qed.

Lemma lower_length (s : string) : String.length (lower s) = String.length s.
Proof. induction s as [|c s IH]; simpl; [reflexivity|now rewrite IH]. Qed.

Lemma prefix_app_r (n h b : string) :
  prefix n h = true -> prefix n (h ++ b) = true.
Proof.
  revert h. induction n as [|c n IH]; intros h;
    [intros _; now destruct (h ++ b)|].
  destruct h as [|d h]; simpl; [discriminate|].
  destruct (ascii_dec c d); [apply IH|discriminate].
Qed.

Lemma prefix_refl_app (n b : string) : prefix n (n ++ b) = true.
Proof.
  induction n as [|c n IH]; simpl; [now destruct b|].
  destruct (ascii_dec c c); [exact IH|congruence].
Qed.

Lemma contains_unfold (n h : string) :
  contains n h
  = prefix n h
    || match h with
       | EmptyString => false
       | String _ rest => contains n rest
       end.
Proof. destruct h; reflexivity. Qed.

Lemma contains_app_r (n h b : string) :
  contains n h = true -> contains n (h ++ b) = true.
Proof.
  induction h as [|c h IH]; intros E.
  - rewrite contains_unfold, orb_false_r in E.
    rewrite contains_unfold. apply orb_true_iff. left.
    now apply (prefix_app_r n EmptyString b).
  - rewrite contains_unfold in E. apply orb_true_iff in E.
    change (String c h ++ b) with (String c (h ++ b)).
    rewrite contains_unfold. apply orb_true_iff.
    destruct E as [E|E].
    + left. now apply (prefix_app_r n (String c h) b).
    + right. now apply IH.
Qed.

Lemma contains_app_l (n a h : string) :
  contains n h = true -> contains n (a ++ h) = true.
Proof.
  intros E. induction a as [|c a IH]; [exact E|].
  change (String c a ++ h) with (String c (a ++ h)).
  rewrite contains_unfold. apply orb_true_iff. now right.
Qed.

Lemma contains_embedded (n a h b : string) :
  contains n h = true -> contains n (a ++ h ++ b) = true.
Proof. intros E. now apply contains_app_l, contains_app_r. Qed.

Lemma contains_self (n a b : string) : contains n (a ++ n ++ b) = true.
Proof.
  apply contains_app_l. rewrite contains_unfold.
  apply orb_true_iff. left. apply prefix_refl_app.
Qed.

  (** [in] is exact: the test succeeds on the texts that have [n] between
      some [a] and some [b], and on no other. *)
Lemma contains_iff (n h : string) :
  contains n h = true <-> exists a b, h = a ++ n ++ b.
Proof.
  split.
  - induction h as [|c h IH]; intros E; rewrite contains_unfold in E;
      apply orb_true_iff in E.
    + destruct E as [E|E]; [|discriminate].
      destruct n; [|discriminate]. now exists EmptyString, EmptyString.
    + destruct E as [E|E].
      * exists EmptyString. simpl.
        clear IH. revert c h E.
        induction n as [|d n IHn]; intros c h E; [now exists (String c h)|].
        simpl in E. destruct (ascii_dec d c) as [->|]; [|discriminate].
        destruct h as [|c' h].
        -- destruct n; [now exists EmptyString|discriminate].
        -- destruct n as [|d' n'] eqn:En.
           ++ now exists (String c' h).
           ++ rewrite <- En in *. destruct (IHn c' h) as [b Hb].
              ** rewrite En in *. exact E.
              ** exists b. simpl. now rewrite Hb.
      * destruct (IH E) as (a & b & ->). now exists (String c a), b.
  - intros (a & b & ->). apply contains_self.
Qed.

  (** A code point that [lower] neither moves nor produces from another. *)
Definition caseless (c : ascii) : Prop :=
  forall d, lower_char d = c <-> d = c.

Lemma prefix_lower_caseless (n s : string) :
  Forall caseless (list_ascii_of_string n) ->
  prefix n (lower s) = prefix n s.
Proof.
  revert s. induction n as [|c n IH]; intros s Hn; [now destruct s|].
  simpl in Hn. inversion Hn as [|? ? Hc Hn']; subst.
  destruct s as [|d s]; simpl; [reflexivity|].
  destruct (ascii_dec c (lower_char d)) as [E|E];
    destruct (ascii_dec c d) as [E'|E'].
  - now apply IH.
  - exfalso. apply E'. symmetry. now apply Hc.
  - exfalso. apply E. symmetry. now apply Hc.
  - reflexivity.
Qed.

Lemma contains_lower_caseless (n s : string) :
  Forall caseless (list_ascii_of_string n) ->
  contains n (lower s) = contains n s.
Proof.
  intros Hn. induction s as [|c s IH].
  - reflexivity.
  - change (lower (String c s)) with (String (lower_char c) (lower s)).
    rewrite (contains_unfold n (String (lower_char c) (lower s))).
    rewrite (contains_unfold n (String c s)).
    rewrite IH. f_equal.
    apply (prefix_lower_caseless n (String c s) Hn).
Qed.

Lemma slash_caseless : caseless "/"%char.
Proof.
  intros d. split.
  - destruct d as [[] [] [] [] [] [] [] []]; vm_compute; congruence.
  - now intros ->.
Qed.

Lemma contains_doc_comment_lower (s : string) :
  contains "///" (lower s) = contains "///" s.
Proof.
  apply contains_lower_caseless. simpl.
  repeat constructor; apply slash_caseless.
Qed.

  (** ** The two scans *)

  (** The two findings [_security_scan] can report. *)
Definition selfdestruct_finding : PyValue :=
  PyDict [ ("type", PyStr "high");
           ("issue", PyStr "Selfdestruct usage detected");
           ("line", PyInt 0);
           ("recommendation",
            PyStr "Consider safer alternatives to selfdestruct") ].

Definition tx_origin_finding : PyValue :=
  PyDict [ ("type", PyStr "medium");
           ("issue", PyStr "tx.origin usage detected");
           ("line", PyInt 0);
           ("recommendation", PyStr "Use msg.sender instead of tx.origin") ].

  (** The text each finding is reported for. *)
Definition markers : list (string * PyValue) :=
  [ ("selfdestruct", selfdestruct_finding); ("tx.origin", tx_origin_finding) ].

Lemma security_scan_eq self code log :
  _security_scan self code log
  = (((if contains "selfdestruct" (lower code)
       then [selfdestruct_finding] else [])
      ++ (if contains "tx.origin" (lower code)
          then [tx_origin_finding] else []))%list,
     logger_info "Performing security scan..." log).
Proof.
  unfold _security_scan.
  destruct (contains "selfdestruct" (lower code)),
           (contains "tx.origin" (lower code)); reflexivity.
Qed.

Lemma security_scan_In self code log marker finding :
  In (marker, finding) markers ->
  (In finding (fst (_security_scan self code log))
   <-> contains marker (lower code) = true).
Proof.
  intros Hm. rewrite security_scan_eq. cbn [fst].
  destruct Hm as [E|[E|[]]]; inversion E; subst; clear E;
    destruct (contains "selfdestruct" (lower code)),
             (contains "tx.origin" (lower code)); simpl;
    split; intros Hin; try reflexivity; try discriminate;
    try (now left); try (now right; left); try (now right);
    repeat (destruct Hin as [Hin|Hin]; try discriminate Hin);
    try contradiction.
Qed.

Lemma security_scan_only_markers self code log finding :
  In finding (fst (_security_scan self code log)) ->
  exists marker, In (marker, finding) markers.
Proof.
  rewrite security_scan_eq. cbn [fst]. intros Hin.
  apply in_app_or in Hin as [Hin|Hin].
  - destruct (contains "selfdestruct" (lower code)); [|contradiction].
    destruct Hin as [<-|[]]. exists "selfdestruct". now left.
  - destruct (contains "tx.origin" (lower code)); [|contradiction].
    destruct Hin as [<-|[]]. exists "tx.origin". now right; left.
Qed.

Lemma best_practices_eq self code log :
  _best_practices_check self code log
  = (((if negb (contains "pragma solidity" (lower code))
       then ["Add pragma solidity version specification"] else [])
      ++ (if negb (contains "natspec" (lower code))
             && negb (contains "///" code)
          then ["Add NatSpec documentation for better readability"] else [])
      ++ (if negb (contains "event" (lower code))
          then ["Consider adding events for better transparency"] else []))%list,
     logger_info "Checking best practices..." log).
Proof.
  unfold _best_practices_check.
  destruct (contains "pragma solidity" (lower code)),
           (contains "natspec" (lower code)),
           (contains "///" code),
           (contains "event" (lower code)); reflexivity.
Qed.

Lemma absent_in_part (n pre code post : string) :
  contains n (pre ++ code ++ post) = false -> contains n code = false.
Proof.
  intros E. destruct (contains n code) eqn:Ec; [|reflexivity].
  now rewrite (contains_embedded n pre code post Ec) in E.
Qed.

Lemma absent_in_lower_part (n pre code post : string) :
  contains n (lower (pre ++ code ++ post)) = false ->
  contains n (lower code) = false.
Proof. rewrite !lower_app. apply absent_in_part. Qed.

  (** X11.  The security scan does not look at the letter case: a contract
      that contains [selfdestruct] or [tx.origin] in any mix of capitals
      and small letters, anywhere in its text, is reported the matching
      finding. *)
Theorem security_scan_flags_any_casing
    self (pre x post : string) log marker finding :
  In (marker, finding) markers ->
  lower x = marker ->
  In finding (fst (_security_scan self (pre ++ x ++ post) log)).
Proof.
  intros Hm Hx. apply (security_scan_In _ _ _ _ _ Hm).
  rewrite !lower_app, Hx. apply contains_self.
Qed.

Lemma security_scan_flags_any_casing_witness :
  In ("selfdestruct", selfdestruct_finding) markers
  /\ lower "SelfDestruct" = "selfdestruct"
  /\ In selfdestruct_finding
        (fst (_security_scan (new_copilot "cogcities-main" "ws://hub:4000")
                ("function kill() public { " ++ "SelfDestruct"
                 ++ "(payable(owner)); }") [])).
Proof.
  split; [now left|]. split; [reflexivity|].
  apply (security_scan_flags_any_casing
           (new_copilot "cogcities-main" "ws://hub:4000")
           "function kill() public { " "SelfDestruct" "(payable(owner)); }"
           [] "selfdestruct" selfdestruct_finding);
    [now left|reflexivity].
Defined.

  (** X12.  A finding of the security scan is never lost by putting more
      text around the contract: whatever is reported for [code] is
      reported for every text that contains [code], by every copilot. *)
Theorem security_findings_persist
    self self' (pre code post : string) log log' finding :
  In finding (fst (_security_scan self code log)) ->
  In finding (fst (_security_scan self' (pre ++ code ++ post) log')).
Proof.
  intros Hin.
  destruct (security_scan_only_markers _ _ _ _ Hin) as [marker Hm].
  apply (security_scan_In _ _ _ _ _ Hm).
  apply (security_scan_In _ _ _ _ _ Hm) in Hin.
  rewrite !lower_app. now apply contains_embedded.
Qed.

Lemma security_findings_persist_witness :
  In tx_origin_finding
     (fst (_security_scan (new_copilot "a" "b")
             "require(tx.origin == owner);" []))
  /\ In tx_origin_finding
        (fst (_security_scan (new_copilot "c" "d")
                ("contract Vault { " ++ "require(tx.origin == owner);"
                 ++ " }") ["earlier record"])).
Proof.
  assert (Hin : In tx_origin_finding
                  (fst (_security_scan (new_copilot "a" "b")
                          "require(tx.origin == owner);" [])))
    by (vm_compute; now left).
  split; [exact Hin|].
  exact (security_findings_persist
           (new_copilot "a" "b") (new_copilot "c" "d")
           "contract Vault { " "require(tx.origin == owner);" " }"
           [] ["earlier record"] tx_origin_finding Hin).
Defined.

  (** X13.  The scan reports nothing, one finding or two: a [high] one, a
      [medium] one, or the [high] one followed by the [medium] one.  Every
      finding carries the line number 0, wherever in the text it was
      found. *)
Theorem security_scan_bounds self (code : string) log :
  In (map (dict_get "type") (fst (_security_scan self code log)))
     [ [];
       [Some (PyStr "high")];
       [Some (PyStr "medium")];
       [Some (PyStr "high"); Some (PyStr "medium")] ]
  /\ (forall finding, In finding (fst (_security_scan self code log)) ->
        dict_get "line" finding = Some (PyInt 0)).
Proof.
  rewrite security_scan_eq. cbn [fst].
  destruct (contains "selfdestruct" (lower code)),
           (contains "tx.origin" (lower code)); cbn [app map]; split.
  - right; right; right; left. reflexivity.
  - intros f [<-|[<-|[]]]; reflexivity.
  - right; left. reflexivity.
  - intros f [<-|[]]; reflexivity.
  - right; right; left. reflexivity.
  - intros f [<-|[]]; reflexivity.
  - left. reflexivity.
  - intros f [].
Qed.

  (** X14.  Advice of the best-practices check only goes away when text is
      added: every piece of advice given for a text that contains [code]
      is also given for [code] alone. *)
Theorem best_practice_advice_shrinks
    self self' (pre code post : string) log log' advice :
  In advice (fst (_best_practices_check self' (pre ++ code ++ post) log')) ->
  In advice (fst (_best_practices_check self code log)).
Proof.
  rewrite !best_practices_eq. cbn [fst]. intros Hin.
  apply in_app_or in Hin as [Hin|Hin];
    [|apply in_app_or in Hin as [Hin|Hin]].
  - destruct (contains "pragma solidity" (lower (pre ++ code ++ post)))
      eqn:E; [contradiction|].
    rewrite (absent_in_lower_part _ _ _ _ E).
    apply in_or_app. left. exact Hin.
  - destruct (contains "natspec" (lower (pre ++ code ++ post))) eqn:E1;
      [contradiction|].
    destruct (contains "///" (pre ++ code ++ post)) eqn:E2; [contradiction|].
    rewrite (absent_in_lower_part _ _ _ _ E1), (absent_in_part _ _ _ _ E2).
    apply in_or_app. right. apply in_or_app. left. exact Hin.
  - destruct (contains "event" (lower (pre ++ code ++ post))) eqn:E;
      [contradiction|].
    rewrite (absent_in_lower_part _ _ _ _ E).
    apply in_or_app. right. apply in_or_app. right. exact Hin.
Qed.

Lemma best_practice_advice_shrinks_witness :
  In "Consider adding events for better transparency"
     (fst (_best_practices_check (new_copilot "a" "b")
             ("pragma solidity ^0.8.0; " ++ "contract C {}" ++ " /// done")
             []))
  /\ In "Consider adding events for better transparency"
        (fst (_best_practices_check (new_copilot "c" "d") "contract C {}" [])).
Proof.
  assert (Hin : In "Consider adding events for better transparency"
                  (fst (_best_practices_check (new_copilot "a" "b")
                          ("pragma solidity ^0.8.0; " ++ "contract C {}"
                           ++ " /// done") [])))
    by (vm_compute; now left).
  split; [exact Hin|].
  exact (best_practice_advice_shrinks
           (new_copilot "c" "d") (new_copilot "a" "b")
           "pragma solidity ^0.8.0; " "contract C {}" " /// done"
           [] [] _ Hin).
Defined.

  (** ** The analysis *)

  (** The records [analyze_contract] hands to the logger. *)
Definition analysis_records (self : FoundryCopilot) : list string :=
  [ "Analyzing contract in city: " ++ city_id self;
    "Performing security scan...";
    "Performing gas analysis...";
    "Checking best practices...";
    "Generating test suggestions...";
    "Sharing insight of type: contract_analysis";
    "Insight shared: contract_analysis" ].

Lemma analyze_contract_eq self (code : string) log :
  analyze_contract self code log
  = ([ ("security_issues",
        FJson (PyList (fst (_security_scan self code log))));
       ("gas_optimization", FJson (fst (_gas_analysis self code log)));
       ("best_practices",
        FJson (PyList (map PyStr (fst (_best_practices_check self code log)))));
       ("test_suggestions",
        FJson (PyList (map PyStr
                         (fst (_generate_test_suggestions self code log)))));
       ("confidence_score", FFloat 0.85) ],
     (log ++ analysis_records self)%list).
Proof.
  unfold analyze_contract, _security_scan, _best_practices_check,
    _gas_analysis, _generate_test_suggestions, _share_insight, logger_info,
    analysis_records.
  destruct (contains "selfdestruct" (lower code)),
           (contains "tx.origin" (lower code)),
           (contains "pragma solidity" (lower code)),
           (contains "natspec" (lower code)),
           (contains "///" code),
           (contains "event" (lower code));
    cbn [fst snd negb andb app]; rewrite <- !app_assoc; reflexivity.
Qed.

  (** X15.  Two contracts that differ only in the case of their letters get
      the same analysis and leave the same log records. *)
Theorem analysis_ignores_letter_case self (a b : string) log :
  lower a = lower b ->
  analyze_contract self a log = analyze_contract self b log.
Proof.
  intros E. rewrite !analyze_contract_eq.
  rewrite !security_scan_eq, !best_practices_eq.
  rewrite <- (contains_doc_comment_lower a), <- (contains_doc_comment_lower b).
  rewrite E. reflexivity.
Qed.

Lemma analysis_ignores_letter_case_witness :
  lower "PRAGMA SOLIDITY ^0.8.0; Contract Wallet { Tx.Origin }"
  = lower "pragma solidity ^0.8.0; contract wallet { tx.origin }"
  /\ analyze_contract (new_copilot "cogcities-main" "ws://hub:4000")
       "PRAGMA SOLIDITY ^0.8.0; Contract Wallet { Tx.Origin }" []
     = analyze_contract (new_copilot "cogcities-main" "ws://hub:4000")
         "pragma solidity ^0.8.0; contract wallet { tx.origin }" [].
Proof.
  split; [reflexivity|].
  apply (analysis_ignores_letter_case
           (new_copilot "cogcities-main" "ws://hub:4000")
           "PRAGMA SOLIDITY ^0.8.0; Contract Wallet { Tx.Origin }"
           "pragma solidity ^0.8.0; contract wallet { tx.origin }" []).
  reflexivity.
Defined.

  (** X16.  Of an analysis only the security issues and the best practices
      depend on the contract: the log records and every other entry (gas
      optimisation, test suggestions, confidence score) are the same for
      every contract, and there are always seven log records. *)
Theorem analysis_depends_on_code_in_two_entries
    self (code1 code2 : string) log :
  snd (analyze_contract self code1 log) = snd (analyze_contract self code2 log)
  /\ List.length (snd (analyze_contract self code1 log)) = 7 + List.length log
  /\ map fst (fst (analyze_contract self code1 log))
     = map fst (fst (analyze_contract self code2 log))
  /\ (forall k, k <> "security_issues" -> k <> "best_practices" ->
        field k (fst (analyze_contract self code1 log))
        = field k (fst (analyze_contract self code2 log))).
Proof.
  rewrite !analyze_contract_eq. cbn [fst snd map].
  repeat split.
  - rewrite length_app. simpl. lia.
  - intros k H1 H2. cbn [field].
    destruct (String.eqb_spec "security_issues" k) as [E|_];
      [now elim H1|].
    destruct (String.eqb_spec "gas_optimization" k); [reflexivity|].
    destruct (String.eqb_spec "best_practices" k) as [E|_];
      [now elim H2|].
    reflexivity.
Qed.

Lemma forallb_is_str (l : list string) : forallb is_str (map PyStr l) = true.
Proof. induction l as [|x l IH]; [reflexivity|exact IH]. Qed.

Lemma analyze_contract_conforms self (code : string) log :
  conforms ContractAnalysisResponse_fields
    (fst (analyze_contract self code log)) = true.
Proof.
  rewrite analyze_contract_eq, security_scan_eq.
  cbn [fst conforms ContractAnalysisResponse_fields String.eqb Ascii.eqb
       Bool.eqb andb is_list_of is_dict _gas_analysis].
  rewrite !forallb_is_str.
  destruct (contains "selfdestruct" (lower code)),
           (contains "tx.origin" (lower code)); reflexivity.
Qed.

  (** X17.  What [analyze_contract] returns always has the shape that
      [ContractAnalysisResponse] declares: its five fields, each of the
      declared type, for every contract. *)
Theorem analysis_conforms_to_response_model self (code : string) log :
  conforms ContractAnalysisResponse_fields
    (fst (analyze_contract self code log)) = true.
Proof. apply analyze_contract_conforms. Qed.

  (** ** The routes *)

  (** X18.  When the response model accepts the dicts of its declared
      shape, [POST /analyze] answers every request with the analysis of
      the submitted contract; it never answers 500, writes no error
      record, and the name of the project and the optimisation level of
      the request play no part. *)
Theorem analyze_route_returns_the_analysis
    (validate : Dict -> PyResult Dict) request s :
  (forall d, conforms ContractAnalysisResponse_fields d = true ->
             validate d = Ok d) ->
  analyze_contract_route validate request s
  = (ReturnedModel
       (fst (analyze_contract (copilot s) (contract_code request) (infos s))),
     {| copilot := copilot s;
        infos := snd (analyze_contract (copilot s) (contract_code request)
                        (infos s));
        errors := errors s |}).
Proof.
  intros Hv. unfold analyze_contract_route.
  pose proof (analyze_contract_conforms
                (copilot s) (contract_code request) (infos s)) as Hc.
  destruct (analyze_contract (copilot s) (contract_code request) (infos s))
    as [result log'].
  cbn [fst snd] in *. now rewrite (Hv _ Hc).
Qed.

  (** A response model that accepts the dicts of the declared shape, as
      they are, and refuses every other dict. *)
Definition strict_model (d : Dict) : PyResult Dict :=
  if conforms ContractAnalysisResponse_fields d
  then Ok d
  else Raised {| exc_is_Exception := true;
                 exc_str := "validation error for ContractAnalysisResponse" |}.

Definition main_copilot : FoundryCopilot :=
  new_copilot "cogcities-main" "ws://neural-transport-hub:4000".

Definition fresh_service : Service :=
  {| copilot := main_copilot; infos := []; errors := [] |}.

Definition vault_request : ContractAnalysisRequest :=
  {| contract_code := "contract Vault { function close() { selfdestruct(a); } }";
     project_name := "vault";
     optimization_level := 1 |}.

Lemma analyze_route_returns_the_analysis_witness :
  (forall d, conforms ContractAnalysisResponse_fields d = true ->
             strict_model d = Ok d)
  /\ fst (analyze_contract_route strict_model vault_request fresh_service)
     = ReturnedModel
         (fst (analyze_contract main_copilot
                 "contract Vault { function close() { selfdestruct(a); } }"
                 []))
  /\ errors (snd (analyze_contract_route strict_model vault_request
                    fresh_service)) = [].
Proof.
  assert (Hv : forall d, conforms ContractAnalysisResponse_fields d = true ->
                         strict_model d = Ok d).
  { intros d Hd. unfold strict_model. rewrite Hd. reflexivity. }
  split; [exact Hv|].
  rewrite (analyze_route_returns_the_analysis
             strict_model vault_request fresh_service Hv).
  split; reflexivity.
Defined.

  (** How a call ends when the copilot is [self] and knows no project. *)
Definition expected_reply (self : FoundryCopilot) (c : Call)
    (reply : Reply) : Prop :=
  match c with
  | HealthCheck =>
      reply = Returned (PyDict [ ("status", PyStr "healthy");
                                 ("city_id", PyStr (city_id self)) ])
  | AnalyzeContract _ =>
      forall status_code detail, reply = HTTPException status_code detail ->
                                 status_code = 500%Z
  | ListProjects => reply = Returned (PyDict [ ("projects", PyList []) ])
  | GetProjectSuggestions _ =>
      reply = HTTPException 404 "Project not found"
  end.

Lemma call_frame validate project_of (c : Call) (s : Service) :
  active_projects (copilot s) = PyDict [] ->
  copilot (snd (call validate project_of c s)) = copilot s
  /\ expected_reply (copilot s) c (fst (call validate project_of c s)).
Proof.
  intros Hap. destruct c as [|request| |project_name];
    cbn [call expected_reply].
  - now split.
  - unfold analyze_contract_route.
    destruct (analyze_contract (copilot s) (contract_code request) (infos s))
      as [result log'].
    destruct (validate result) as [response|e];
      [|destruct (exc_is_Exception e)]; cbn [fst snd copilot]; split;
      try reflexivity; intros status_code detail E; congruence.
  - unfold list_projects. rewrite Hap. now split.
  - unfold get_project_suggestions. rewrite Hap. now split.
Qed.

  (** X19.  No handler changes the copilot object: after any sequence of
      calls of the four handlers on a new copilot, its city, its
      knowledge base and its projects are as [__init__] left them.  So no
      project is ever known to a handler: every call of [list_projects]
      returns an empty list, every call of [get_project_suggestions]
      raises 404 [Project not found] whatever name it is given
      ([suggest_improvements] is never reached), and the only
      [HTTPException] the handler of [/analyze] can raise is 500.  This
      holds whatever the response model and the stored objects do.  (What
      the framework answers to a request for which it calls no handler is
      not part of this.) *)
Theorem no_project_is_ever_found
    (validate : Dict -> PyResult Dict) (project_of : PyValue -> FoundryProject)
    (city url : string) (log errs : Log) (cs : list Call) :
  copilot (snd (call_all validate project_of cs
                  {| copilot := new_copilot city url;
                     infos := log; errors := errs |}))
  = new_copilot city url
  /\ Forall2 (expected_reply (new_copilot city url)) cs
       (fst (call_all validate project_of cs
               {| copilot := new_copilot city url;
                  infos := log; errors := errs |})).
Proof.
  assert (G : forall cs s,
             copilot s = new_copilot city url ->
             copilot (snd (call_all validate project_of cs s))
             = new_copilot city url
             /\ Forall2 (expected_reply (new_copilot city url)) cs
                  (fst (call_all validate project_of cs s))).
  { clear. intros cs. induction cs as [|c cs IH]; intros s Hs.
    - split; [exact Hs|constructor].
    - cbn [call_all].
      assert (Hap : active_projects (copilot s) = PyDict [])
        by now rewrite Hs.
      destruct (call_frame validate project_of c s Hap) as [Hc He].
      destruct (call validate project_of c s) as [reply s1].
      cbn [fst snd] in Hc, He.
      destruct (IH s1 (eq_trans Hc Hs)) as [Hc' Hf].
      destruct (call_all validate project_of cs s1) as [replies s2].
      cbn [fst snd] in *. split; [exact Hc'|].
      constructor; [now rewrite <- Hs|exact Hf]. }
  apply G. reflexivity.
Qed.

  (** The advice a project gets: that of a project with no name and no
      contracts, asked of a copilot of no city. *)
Definition generic_advice : PyValue :=
  fst (suggest_improvements (new_copilot "" "")
         {| name := ""; contracts := []; tests := []; dependencies := [];
            gas_optimization_level := 0 |} []).

  (** X20.  [POST /projects/{name}/suggestions] answers 404 [Project not
      found] when the name is no key of [active_projects] and changes
      nothing then.  For a known name it answers the same advice whatever
      project is stored under the name and whatever the copilot: the
      project only gives its name to the one log record that is written.
      In both cases the copilot object and the error records stay as they
      were. *)
Theorem suggestions_are_the_same_for_every_project
    (project_of : PyValue -> FoundryProject) (project_name : string)
    (s : Service) :
  copilot (snd (get_project_suggestions project_of project_name s))
  = copilot s
  /\ errors (snd (get_project_suggestions project_of project_name s))
     = errors s
  /\ match dict_get project_name (active_projects (copilot s)) with
     | None =>
         get_project_suggestions project_of project_name s
         = (HTTPException 404 "Project not found", s)
     | Some project =>
         fst (get_project_suggestions project_of project_name s)
         = Returned generic_advice
         /\ infos (snd (get_project_suggestions project_of project_name s))
            = logger_info
                ("Generating suggestions for project: "
                 ++ name (project_of project))
                (infos s)
     end.
Proof.
  unfold get_project_suggestions.
  destruct (dict_get project_name (active_projects (copilot s)));
    repeat split.
Qed.

End CopilotFacts.
